(** * OntarioERWait: location resolution and hospital ranking

    A shallow embedding of the engine inside the main screen component:
    the variant with the multi-provider geocoder, the reverse geocoder and
    the real-routing travel-time provider, together with the estimated
    travel-time provider of the variant before it.

    Conventions of the embedding.
    - A JavaScript string is the list of its UTF-16 code units ([N]).
    - A JavaScript [number] is a rational ([Q]), the value of a double;
      NaN and the infinities are not represented. Comparisons and signs
      are those of the values; the operations of the travel-time estimate
      that round their result belong to the host ([Num.arithmetic]).
    - [fetch] is a request answered by the network; the network is a
      parameter of every function that uses it, the requests made are
      logged in order, and a rejected promise is an exception of the
      small monad [M].
    - Response bodies are typed by the contract of the endpoint they come
      from, except that of the routing endpoint, which is any JSON value;
      a body that is not JSON makes [response.json()] reject. A search
      that answers parseable JSON of another shape than a list of
      candidates (an error object) is outside the model: the source then
      returns [null] without raising and without trying a later step. *)

From Stdlib Require Import Ascii String.
From Stdlib Require Import List NArith ZArith QArith Qround Bool Lia Lqa.
From Stdlib Require Import Permutation Sorted.
From Stdlib Require Import DecimalString DecimalZ.
Import ListNotations.

Set Implicit Arguments.

(* ================================================================== *)
(** ** Strings *)

Module JsString.

Definition code_unit := N.
Definition jsstring := list code_unit.

(** A string literal of the source, as code units. *)
Definition js (s : string) : jsstring :=
  map N_of_ascii (list_ascii_of_string s).

Definition units (lo hi : N) : list code_unit :=
  map (fun k => (lo + N.of_nat k)%N) (seq 0 (S (N.to_nat (hi - lo)))).

Definition memb (c : code_unit) (l : list code_unit) : bool :=
  existsb (N.eqb c) l.

(** WhiteSpace and LineTerminator of ECMAScript: what [trim] strips and
    what [\s] matches. *)
Definition whiteSpaceUnits : list code_unit :=
  [0x9; 0xA; 0xB; 0xC; 0xD; 0x20; 0xA0; 0x1680]%N
    ++ units 0x2000 0x200A
    ++ [0x2028; 0x2029; 0x202F; 0x205F; 0x3000; 0xFEFF]%N.

Definition isWhiteSpace (c : code_unit) : bool := memb c whiteSpaceUnits.

Fixpoint trimStart (s : jsstring) : jsstring :=
  match s with
  | c :: r => if isWhiteSpace c then trimStart r else s
  | [] => []
  end.

Definition trimEnd (s : jsstring) : jsstring := rev (trimStart (rev s)).

Definition trim (s : jsstring) : jsstring := trimEnd (trimStart s).

Definition isAsciiLower (c : code_unit) : bool :=
  ((0x61 <=? c) && (c <=? 0x7A))%N.
Definition isAsciiUpper (c : code_unit) : bool :=
  ((0x41 <=? c) && (c <=? 0x5A))%N.
Definition isAsciiDigit (c : code_unit) : bool :=
  ((0x30 <=? c) && (c <=? 0x39))%N.
Definition isAscii (c : code_unit) : bool := (c <? 0x80)%N.

(** The code units outside ASCII whose upper-case form contains a unit
    of A-Z (there is none whose form contains a digit): sharp s, dotless
    i, n preceded by apostrophe, long s, j with caron, h/t/w/y/a with
    marks, and the Latin ligatures. *)
Definition specialUpper : list (code_unit * list code_unit) :=
  [ (0xDF, [0x53; 0x53]); (0x131, [0x49]); (0x149, [0x2BC; 0x4E]);
    (0x17F, [0x53]); (0x1F0, [0x4A; 0x30C]);
    (0x1E96, [0x48; 0x331]); (0x1E97, [0x54; 0x308]);
    (0x1E98, [0x57; 0x30A]); (0x1E99, [0x59; 0x30A]);
    (0x1E9A, [0x41; 0x2BE]);
    (0xFB00, [0x46; 0x46]); (0xFB01, [0x46; 0x49]); (0xFB02, [0x46; 0x4C]);
    (0xFB03, [0x46; 0x46; 0x49]); (0xFB04, [0x46; 0x46; 0x4C]);
    (0xFB05, [0x53; 0x54]); (0xFB06, [0x53; 0x54]) ]%N.

(** The code units outside ASCII whose lower-case form contains a unit
    of a-z: capital I with dot above and the Kelvin sign. *)
Definition specialLower : list (code_unit * list code_unit) :=
  [ (0x130, [0x69; 0x307]); (0x212A, [0x6B]) ]%N.

Fixpoint assoc (c : code_unit) (t : list (code_unit * list code_unit))
  : option (list code_unit) :=
  match t with
  | [] => None
  | (k, v) :: t' => if (c =? k)%N then Some v else assoc c t'
  end.

Definition upperUnit (c : code_unit) : list code_unit :=
  if isAsciiLower c then [(c - 32)%N]
  else match assoc c specialUpper with Some v => v | None => [c] end.

Definition lowerUnit (c : code_unit) : list code_unit :=
  if isAsciiUpper c then [(c + 32)%N]
  else match assoc c specialLower with Some v => v | None => [c] end.

(** [String.prototype.toUpperCase] and [toLowerCase], exact on ASCII and
    on every unit whose mapping reaches the ASCII letters. Any other
    unit is left in place: its real mapping consists of units outside
    ASCII, and the source only ever compares the result with ASCII text. *)
Definition toUpperCase (s : jsstring) : jsstring := flat_map upperUnit s.
Definition toLowerCase (s : jsstring) : jsstring := flat_map lowerUnit s.

(** [s.slice(a, b)] for [0 <= a <= b]. *)
Definition slice (a b : nat) (s : jsstring) : jsstring :=
  firstn (b - a) (skipn a s).

(** [s.replace(/[...]/g, by)] for a pattern that matches one code unit. *)
Definition replaceEach (p : code_unit -> bool) (by_ : jsstring)
           (s : jsstring) : jsstring :=
  flat_map (fun c => if p c then by_ else [c]) s.

(** [s.replace(/[...]+/g, by)]: every maximal run of matching units is
    replaced once. *)
Fixpoint replaceRuns (p : code_unit -> bool) (by_ : jsstring)
         (inRun : bool) (s : jsstring) : jsstring :=
  match s with
  | [] => []
  | c :: r =>
      if p c then (if inRun then [] else by_) ++ replaceRuns p by_ true r
      else c :: replaceRuns p by_ false r
  end.

(** [parts.join(sep)]. *)
Fixpoint join (sep : jsstring) (parts : list jsstring) : jsstring :=
  match parts with
  | [] => []
  | [p] => p
  | p :: rest => p ++ sep ++ join sep rest
  end.

(** [a === b] on strings. *)
Fixpoint eqb (a b : jsstring) : bool :=
  match a, b with
  | [], [] => true
  | x :: a', y :: b' => (x =? y)%N && eqb a' b'
  | _, _ => false
  end.

(** Truthiness of a string: the empty string is falsy. *)
Definition truthy (s : jsstring) : bool :=
  match s with [] => false | _ => true end.

End JsString.
Import JsString.

(* ================================================================== *)
(** ** Regular expressions (the fragment the source uses) *)

Module RegExp.

(** A class is the set of its members; [\s] is the white-space class. *)
Inductive term :=
| One (members : list code_unit)     (* [...] or \s *)
| Opt (members : list code_unit).    (* [...]? or \s? *)

Record regexp := { pattern : list term; ignoreCase : bool }.

(** Canonicalize of ECMAScript for a non-unicode pattern: with the [i]
    flag a unit is compared by its upper-case form, except that a unit
    outside ASCII never canonicalizes into ASCII. Units outside ASCII
    are left as they are here, which agrees with the real canonical form
    on whether it equals that of an ASCII or white-space unit. *)
Definition canonicalize (ic : bool) (c : code_unit) : code_unit :=
  if ic && isAsciiLower c then (c - 32)%N else c.

Definition classMatches (ic : bool) (members : list code_unit)
           (c : code_unit) : bool :=
  existsb (fun a => (canonicalize ic a =? canonicalize ic c)%N) members.

(** Matching of [^ t1 t2 ... $] against the whole of [s], with the
    greedy choice for an optional term tried first. *)
Fixpoint matchTerms (ic : bool) (ts : list term) (s : jsstring) : bool :=
  match ts with
  | [] => match s with [] => true | _ :: _ => false end
  | One m :: ts' =>
      match s with
      | c :: s' => classMatches ic m c && matchTerms ic ts' s'
      | [] => false
      end
  | Opt m :: ts' =>
      match s with
      | c :: s' => classMatches ic m c && matchTerms ic ts' s'
      | [] => false
      end || matchTerms ic ts' s
  end.

Definition test (r : regexp) (s : jsstring) : bool :=
  matchTerms (ignoreCase r) (pattern r) s.

End RegExp.

(* ================================================================== *)
(** ** Postal codes *)

(** [/^[KLMNP][0-9][A-Z]\s?[0-9][A-Z][0-9]$/i] *)
Definition ontarioPostalRegex : RegExp.regexp :=
  {| RegExp.pattern :=
       [ RegExp.One (js "KLMNP"); RegExp.One (units 0x30 0x39);
         RegExp.One (units 0x41 0x5A); RegExp.Opt whiteSpaceUnits;
         RegExp.One (units 0x30 0x39); RegExp.One (units 0x41 0x5A);
         RegExp.One (units 0x30 0x39) ];
     RegExp.ignoreCase := true |}.

Definition validateOntarioPostalCode (postalCode : jsstring) : bool :=
  RegExp.test ontarioPostalRegex (trim postalCode).

(** [[^A-Z0-9]] *)
Definition notUpperAlnum (c : code_unit) : bool :=
  negb (isAsciiUpper c || isAsciiDigit c).

Definition formatPostalCode (text : jsstring) : jsstring :=
  let cleaned := replaceEach notUpperAlnum [] (toUpperCase text) in
  if (3 <? length cleaned)%nat
  then slice 0 3 cleaned ++ js " " ++ slice 3 6 cleaned
  else cleaned.

(* ================================================================== *)
(** ** Numbers *)

Module Num.

(** The arithmetic of doubles that rounds its result: [a / b], [a * b] and
    [Math.round]. A rational stands for the value of a double, and the
    result of these operations on doubles is not always the result on
    rationals (at distanceKm = 3.6666666666666665 the source computes
    [Math.round((distanceKm / 40) * 60)] to 6, where the rationals give
    5), so the three operations are the host's. *)
Record arithmetic := {
  divide : Q -> Q -> Q;
  times : Q -> Q -> Q;
  Math_round : Q -> Q
}.

(** [a < b] and [a > b] on numbers. *)
Definition ltb (a b : Q) : bool := negb (Qle_bool b a).
Definition gtb (a b : Q) : bool := ltb b a.

(** [v || 0] for an optional number: an absent value and zero are falsy. *)
Definition orZero (v : option Q) : Q :=
  match v with
  | Some x => if Qeq_bool x 0 then 0 else x
  | None => 0
  end.

End Num.
Import Num.

(* ================================================================== *)
(** ** Data model *)

Record Coordinates := { lat : Q; lng : Q }.

Record Hospital := {
  id : jsstring;
  name : jsstring;
  address : jsstring;
  city : jsstring;
  coordinates : Coordinates;
  currentWaitTime : Q;
  lastUpdated : jsstring;
  phone : jsstring;
  services : list jsstring;
  distance : option Q;
  score : option Q;
  travelTimeMinutes : option Q;
  totalTimeMinutes : option Q
}.

Inductive SortMode := combined | travelTime | waitTime.

(* ================================================================== *)
(** ** The network and the effects of the engine *)

Module Net.

(** The requests the engine makes, by endpoint and query parameters. *)
Inductive request :=
| NominatimPostal (postalcode : jsstring)
    (* nominatim.openstreetmap.org/search?postalcode=..&country=Canada&format=json&limit=1 *)
| NominatimQuery (q : jsstring)
    (* nominatim.openstreetmap.org/search?q=..&format=json&limit=1 *)
| GeocoderCa (locate : jsstring)
    (* geocoder.ca/?locate=..&geoit=XML&json=1 *)
| NominatimReverse (lat lon : Q)
    (* nominatim.openstreetmap.org/reverse?lat=..&lon=..&format=json&addressdetails=1 *)
| CalculateTravelTime (start_lat start_lng end_lat end_lng : Q)
    (* BACKEND/api/calculate-travel-time?start_lat=..&start_lng=..&end_lat=..&end_lng=.. *)
| HospitalsNearby (lat lng : Q) (limit : N).
    (* BACKEND/api/hospitals/nearby?lat=..&lng=..&limit=.. *)

(** The body of a response: text that is not JSON, JSON [null], or a
    value of the shape the endpoint promises. *)
Inductive body (B : Type) :=
| NotJson
| JsonNull
| Json (b : B).
Arguments NotJson {B}.
Arguments JsonNull {B}.

Record response (B : Type) := { ok : bool; payload : body B }.

(** What [fetch] does: it rejects (a network error) or resolves to a
    response, whatever its status. *)
Inductive fetched (B : Type) :=
| NetworkError
| Resolves (r : response B).
Arguments NetworkError {B}.

(** A candidate of a Nominatim search. *)
Record place := { place_lat : jsstring; place_lon : jsstring }.

(** The answer of geocoder.ca. *)
Record geoData := { latt : option jsstring; longt : option jsstring }.

(** The [address] member of a Nominatim reverse answer, restricted to
    the fields the engine reads. *)
Record addressFields := {
  addr_city : option jsstring;
  addr_town : option jsstring;
  addr_village : option jsstring;
  addr_municipality : option jsstring;
  addr_suburb : option jsstring;
  addr_neighbourhood : option jsstring;
  addr_quarter : option jsstring
}.

Record reverseData := { addr : option addressFields }.

(** A JSON value. The routing endpoint is read without a check of what it
    answers, so its body is any JSON value. *)
#[warnings="-register-all"]
Inductive jsonValue :=
| JNull
| JBool (b : bool)
| JNumber (q : Q)
| JString (s : jsstring)
| JArray (items : list jsonValue)
| JObject (members : list (jsstring * jsonValue)).

(** What reading a member gives: [undefined], or the value found. *)
Inductive value :=
| Undefined
| Value (v : jsonValue).

(** The member of the name in the members of an object as [JSON.parse]
    builds it: of two members of one name the later one stays. *)
Fixpoint lookupMember (name : jsstring) (members : list (jsstring * jsonValue))
  : value :=
  match members with
  | [] => Undefined
  | (k, v) :: rest =>
      match lookupMember name rest with
      | Undefined => if JsString.eqb k name then Value v else Undefined
      | found => found
      end
  end.

Record network := {
  search : request -> fetched (list place);
  geocoderCa : request -> fetched geoData;
  reverse : request -> fetched reverseData;
  routing : request -> fetched jsonValue;
  nearby : request -> fetched (list Hospital)
}.

(** How a computation ends: with a value, or with an exception (a
    rejected promise, a [throw], a TypeError). *)
Inductive completion (A : Type) :=
| Normal (a : A)
| Thrown.
Arguments Thrown {A}.

(** A computation reads the network and appends to the log of requests. *)
Definition M (A : Type) : Type :=
  network -> list request -> completion A * list request.

Definition ret {A} (a : A) : M A := fun _ log => (Normal a, log).

Definition throw {A} : M A := fun _ log => (Thrown, log).

Definition bind {A B} (m : M A) (k : A -> M B) : M B :=
  fun net log =>
    match m net log with
    | (Normal a, log') => k a net log'
    | (Thrown, log') => (Thrown, log')
    end.

(** [try { m } catch { h }] *)
Definition try_catch {A} (m : M A) (h : M A) : M A :=
  fun net log =>
    match m net log with
    | (Normal a, log') => (Normal a, log')
    | (Thrown, log') => h net log'
    end.

(** [await fetch(url)] against one endpoint of the network. *)
Definition fetch {B} (endpoint : network -> request -> fetched B)
           (r : request) : M (response B) :=
  fun net log =>
    match endpoint net r with
    | NetworkError => (Thrown, log ++ [r])
    | Resolves resp => (Normal resp, log ++ [r])
    end.

(** [await response.json()]: rejects on a body that is not JSON. *)
Definition json {B} (resp : response B) : M (option B) :=
  match payload resp with
  | NotJson => throw
  | JsonNull => ret None
  | Json b => ret (Some b)
  end.

(** Reading a member of [data]: a TypeError when [data] is [null]. *)
Definition member {B} (data : option B) : M B :=
  match data with
  | None => throw
  | Some b => ret b
  end.

(** [data.name] on a parsed body, for a name that no array, string, number
    or boolean carries (as [duration]): a TypeError on [null], the member
    of an object, [undefined] on every other value. *)
Definition property (name : jsstring) (data : option jsonValue) : M value :=
  match data with
  | None | Some JNull => throw
  | Some (JObject members) => ret (lookupMember name members)
  | Some _ => ret Undefined
  end.

(** [await Promise.all(l.map(f))]: the calls are started in the order of
    the list and the results are collected in that order; the first
    rejection rejects the whole. *)
Fixpoint all {A B} (f : A -> M B) (l : list A) : M (list B) :=
  match l with
  | [] => ret []
  | a :: l' =>
      bind (f a) (fun b => bind (all f l') (fun bs => ret (b :: bs)))
  end.

Definition run {A} (m : M A) (net : network) : completion A * list request :=
  m net [].

End Net.
Import Net.

Notation "x <- m ;; k" := (bind m (fun x => k))
  (at level 61, m at next level, right associativity).

(* ================================================================== *)
(** ** Travel-time providers *)

(** The declared interface: a provider answers a number. *)
Class TravelTimeProvider := {
  calculateTravelTime : Coordinates -> Coordinates -> Q -> M Q
}.

(** Option B: the estimate from an average speed. *)
Module EstimatedTravelTimeProvider.

Definition AVERAGE_SPEED_KMH : Q := 40.

Definition calculateTravelTime (host : arithmetic)
           (from to : Coordinates) (distanceKm : Q) : M Q :=
  let travelTimeMinutes :=
    times host (divide host distanceKm AVERAGE_SPEED_KMH) 60 in
  ret (Math_round host travelTimeMinutes).

End EstimatedTravelTimeProvider.

(** Option C: the routing service behind the backend. The class is declared
    to implement the interface, but [return data.duration] hands on
    whatever the body holds under that name, so the result is a value and
    not always a number. *)
Module RealRoutingTimeProvider.

Definition calculateTravelTime (host : arithmetic)
           (from to : Coordinates) (distanceKm : Q) : M value :=
  try_catch
    (response <- fetch routing
       (CalculateTravelTime (lat from) (lng from) (lat to) (lng to)) ;;
     if negb (ok response) then throw
     else
       data <- json response ;;
       property (js "duration") data)
    (let AVERAGE_SPEED_KMH : Q := 40 in
     let travelTimeMinutes :=
       times host (divide host distanceKm AVERAGE_SPEED_KMH) 60 in
     ret (Value (JNumber (Math_round host travelTimeMinutes)))).

End RealRoutingTimeProvider.

(** The estimated provider meets the interface on every input. The
    real-routing one does where the service answers a number or fails; the
    use the screen makes of a provider is modelled against the interface. *)
#[export] Instance Estimated (host : arithmetic) : TravelTimeProvider | 10 :=
  {| calculateTravelTime :=
       EstimatedTravelTimeProvider.calculateTravelTime host |}.

(* ================================================================== *)
(** ** Geocoding a postal code *)

Section Geocoding.

(** [parseFloat] of the host; which number a text denotes plays no part
    in the control flow of the resolver. *)
Variable parseFloat : jsstring -> Q.

(** [!data || data.length === 0] *)
Definition noResults (data : option (list place)) : bool :=
  match data with
  | None => true
  | Some l => (length l =? 0)%nat
  end.

(** Truthiness of an optional text member: absent and empty are falsy. *)
Definition present (v : option jsstring) : bool :=
  match v with
  | None => false
  | Some s => truthy s
  end.

Definition text (v : option jsstring) : jsstring :=
  match v with
  | None => []
  | Some s => s
  end.

Definition geocodePostalCode (postalCode : jsstring) : M (option Coordinates) :=
  try_catch
    (let formattedPostalCode :=
       replaceRuns isWhiteSpace (js "+") false (trim postalCode) in
     (* Try Nominatim with postal code *)
     response <- fetch search (NominatimPostal formattedPostalCode) ;;
     data <- json response ;;
     (* If no results, try with full query including Ontario *)
     data <- (if noResults data then
                response <- fetch search
                  (NominatimQuery (formattedPostalCode ++ js "+Ontario+Canada")) ;;
                json response
              else ret data) ;;
     (* If still no results, try Geocode.ca; [Some c] is its [return] *)
     returned <- (if noResults data then
                    let cleanPostal :=
                      replaceRuns isWhiteSpace [] false (trim postalCode) in
                    response <- fetch geocoderCa (GeocoderCa cleanPostal) ;;
                    if ok response then
                      geoData <- json response ;;
                      match geoData with
                      | Some g =>
                          if present (latt g) && present (longt g)
                          then ret (Some {| lat := parseFloat (text (latt g));
                                            lng := parseFloat (text (longt g)) |})
                          else ret None
                      | None => ret None
                      end
                    else ret None
                  else ret None) ;;
     match returned with
     | Some c => ret (Some c)
     | None =>
         match data with
         | Some (first :: _) =>
             ret (Some {| lat := parseFloat (place_lat first);
                          lng := parseFloat (place_lon first) |})
         | _ => ret None
         end
     end)
    (ret None).

End Geocoding.

(* ================================================================== *)
(** ** Naming the area of a coordinate *)

(** [a || b] on optional text members. *)
Definition orElse (a b : option jsstring) : option jsstring :=
  if present a then a else b.

(** [a !== b] where [a] is a text and [b] an optional text. *)
Definition differs (a : jsstring) (b : option jsstring) : bool :=
  match b with
  | None => true
  | Some s => negb (JsString.eqb a s)
  end.

Definition UnknownArea : jsstring := js "Unknown Area".

(** The part added for Brampton, from the side of the centre the
    coordinate lies on. *)
Definition quadrant (lat lng : Q) : jsstring :=
  let isNorth := gtb lat (4371 # 100) in
  let isWest := ltb lng (- (7978 # 100)) in
  if isNorth && isWest then js "Northwest"
  else if isNorth && negb isWest then js "Northeast"
  else if negb isNorth && isWest then js "Southwest"
  else js "Southeast".

(** The parts collected from an address, in order. *)
Definition areaParts (lat lng : Q) (a : addressFields) : list jsstring :=
  let parts := [] in
  (* Get city *)
  let city := orElse (addr_city a) (orElse (addr_town a)
                (orElse (addr_village a) (addr_municipality a))) in
  let parts := if present city then parts ++ [text city] else parts in
  (* Get neighborhood/suburb *)
  let neighborhood := orElse (addr_suburb a)
                        (orElse (addr_neighbourhood a) (addr_quarter a)) in
  let parts :=
    if present neighborhood && differs (text neighborhood) city
    then parts ++ [text neighborhood] else parts in
  (* If we have city, add region for context *)
  if (length parts =? 1)%nat && present city then
    if JsString.eqb (toLowerCase (text city)) (js "brampton")
    then parts ++ [quadrant lat lng]
    else parts
  else parts.

Definition reverseGeocode (lat lng : Q) : M jsstring :=
  try_catch
    (response <- fetch reverse (NominatimReverse lat lng) ;;
     if negb (ok response) then throw
     else
       data <- json response ;;
       match data with
       | Some {| addr := Some a |} =>
           let joined := join (js " - ") (areaParts lat lng a) in
           ret (if truthy joined then joined else UnknownArea)
       | _ => ret UnknownArea
       end)
    (ret UnknownArea).

(* ================================================================== *)
(** ** Ranking *)

(** [Array.prototype.sort] with a comparator: stable, an element [x] stays
    before [y] unless the comparator is positive on [(x, y)]. For a
    consistent comparator the result is determined by stability; it is
    computed here by insertion from the right. *)
Fixpoint sort_insert {A} (cmp : A -> A -> Q) (x : A) (l : list A) : list A :=
  match l with
  | [] => [x]
  | y :: l' =>
      if Qle_bool (cmp x y) 0 then x :: l else y :: sort_insert cmp x l'
  end.

Definition Array_sort {A} (cmp : A -> A -> Q) (l : list A) : list A :=
  fold_right (sort_insert cmp) [] l.

Definition sortHospitals (hospitalList : list Hospital) (mode : SortMode)
  : list Hospital :=
  let sorted := hospitalList in
  match mode with
  | travelTime =>
      (* Sort by shortest travel time *)
      Array_sort (fun a b => orZero (travelTimeMinutes a)
                             - orZero (travelTimeMinutes b)) sorted
  | waitTime =>
      (* Sort by shortest wait time *)
      Array_sort (fun a b => currentWaitTime a - currentWaitTime b) sorted
  | combined =>
      (* Sort by total time (travel + wait) *)
      Array_sort (fun a b => orZero (totalTimeMinutes a)
                             - orZero (totalTimeMinutes b)) sorted
  end.

(* ================================================================== *)
(** ** Fetching and enriching the nearby hospitals *)

(** The part of the component state the fetch writes. *)
Record AppState := {
  hospitals : list Hospital;
  loading : bool;
  refreshing : bool;
  alerts : list (jsstring * jsstring)
}.

Definition setHospitals (hs : list Hospital) (st : AppState) : AppState :=
  {| hospitals := hs; loading := loading st; refreshing := refreshing st;
     alerts := alerts st |}.

Definition setLoading (b : bool) (st : AppState) : AppState :=
  {| hospitals := hospitals st; loading := b; refreshing := refreshing st;
     alerts := alerts st |}.

Definition setRefreshing (b : bool) (st : AppState) : AppState :=
  {| hospitals := hospitals st; loading := loading st; refreshing := b;
     alerts := alerts st |}.

Definition alert (title message : jsstring) (st : AppState) : AppState :=
  {| hospitals := hospitals st; loading := loading st;
     refreshing := refreshing st;
     alerts := alerts st ++ [(title, message)] |}.

Section Fetching.

(** The provider chosen for the deployment, taken at its declared
    interface (the real-routing provider in the current variant of the
    screen, the estimated one in the earlier variant). *)
Context (travelTimeProvider : TravelTimeProvider).

(** The function mapped over the candidates. *)
Definition withTravelTime (lat lng : Q) (hospital : Hospital) : M Hospital :=
  travelTime <- calculateTravelTime
                  {| lat := lat; lng := lng |}
                  (coordinates hospital)
                  (orZero (distance hospital)) ;;
  ret {| id := id hospital; name := name hospital;
         address := address hospital; city := city hospital;
         coordinates := coordinates hospital;
         currentWaitTime := currentWaitTime hospital;
         lastUpdated := lastUpdated hospital; phone := phone hospital;
         services := services hospital; distance := distance hospital;
         score := score hospital;
         travelTimeMinutes := Some travelTime;
         totalTimeMinutes := Some (travelTime + currentWaitTime hospital) |}.

(** The candidates of the backend, enriched: [hospitalsWithTravelTime]. *)
Definition hospitalsWithTravelTime (lat lng : Q) : M (list Hospital) :=
  response <- fetch nearby (HospitalsNearby lat lng 5) ;;
  if negb (ok response) then throw
  else
    data <- json response ;;
    data <- member data ;;
    all (withTravelTime lat lng) data.

Definition fetchNearbyHospitals (sortMode : SortMode) (lat lng : Q)
           (st : AppState) : M AppState :=
  st <- try_catch
          (enriched <- hospitalsWithTravelTime lat lng ;;
           (* Sort based on current sort mode *)
           let sorted := sortHospitals enriched sortMode in
           ret (setHospitals sorted st))
          (ret (alert (js "Error") (js "Unable to fetch nearby hospitals") st)) ;;
  ret (setRefreshing false (setLoading false st)).

End Fetching.

(* ================================================================== *)
(** ** The resolver of the variant before *)

Module EarlierVariant.

(** One structured search, refused when its status is not a success. *)
Definition geocodePostalCode (parseFloat : jsstring -> Q)
           (postalCode : jsstring) : M (option Coordinates) :=
  try_catch
    (let formattedPostalCode :=
       replaceRuns isWhiteSpace (js "+") false (trim postalCode) in
     response <- fetch search (NominatimPostal formattedPostalCode) ;;
     if negb (ok response) then throw
     else
       data <- json response ;;
       match data with
       | Some (first :: _) =>
           ret (Some {| lat := parseFloat (place_lat first);
                        lng := parseFloat (place_lon first) |})
       | _ => ret None
       end)
    (ret None).

(** [travelTimeProvider] of this variant. *)
Definition travelTimeProvider (host : arithmetic) : TravelTimeProvider :=
  Estimated host.

(** The fetch of this variant: the same steps, with ten candidates asked
    of the backend. *)
Definition hospitalsWithTravelTime (host : arithmetic) (lat lng : Q)
  : M (list Hospital) :=
  response <- fetch nearby (HospitalsNearby lat lng 10) ;;
  if negb (ok response) then throw
  else
    data <- json response ;;
    data <- member data ;;
    all (withTravelTime (travelTimeProvider host) lat lng) data.

Definition fetchNearbyHospitals (host : arithmetic) (sortMode : SortMode)
           (lat lng : Q) (st : AppState) : M AppState :=
  st <- try_catch
          (enriched <- hospitalsWithTravelTime host lat lng ;;
           let sorted := sortHospitals enriched sortMode in
           ret (setHospitals sorted st))
          (ret (alert (js "Error") (js "Unable to fetch nearby hospitals") st)) ;;
  ret (setRefreshing false (setLoading false st)).

End EarlierVariant.

(* ================================================================== *)
(** ** Presentation helpers *)

(** [String(n)] for a whole number [n] of magnitude below 2^53, where
    JavaScript prints plain decimal digits. *)
Definition numberToString (n : Z) : jsstring :=
  js (NilZero.string_of_int (Z.to_int n)).

(** [formatWaitTime] on a whole number of minutes of magnitude below 2^53.
    There the double [minutes / 60] is within 1/60 of the quotient, so
    [Math.floor] of it is the floored division; [%] is exact and keeps the
    sign of the dividend. Larger numbers are outside the model: from about
    7.2e16 the double quotient can round up to the next whole number. *)
Definition formatWaitTime (minutes : Z) : jsstring :=
  let hours := (minutes / 60)%Z in
  let mins := Z.rem minutes 60 in
  if (0 <? hours)%Z
  then numberToString hours ++ js "h " ++ numberToString mins ++ js "m"
  else numberToString mins ++ js "m".

Definition getWaitTimeColor (minutes : Q) : jsstring :=
  if ltb minutes 60 then js "#10B981"        (* Green *)
  else if ltb minutes 120 then js "#F59E0B"  (* Orange *)
  else js "#EF4444".                         (* Red *)

(** [[^0-9+]] *)
Definition notDialable (c : code_unit) : bool :=
  negb (isAsciiDigit c || (c =? 0x2B)%N).

(** The address [callHospital] hands to the dialer. *)
Definition phoneUrl (phone : jsstring) : jsstring :=
  js "tel:" ++ replaceEach notDialable [] phone.

(* ================================================================== *)
(** ** The screen *)

Inductive platform := ios | android | web.

Inductive LocationSource := gps | postal.

(** The location module of the device: each call resolves to a value or
    rejects ([None]). *)
Record LocationApi := {
  requestForegroundPermissionsAsync : option jsstring;
  getCurrentPositionAsync : option Coordinates
}.

Record device := {
  OS : platform;
  expoLocation : LocationApi;
  openURL : jsstring -> bool      (* [false]: the promise rejects *)
}.

(** [Location] is [null] on the web, where the module is not loaded. *)
Definition Location (dev : device) : option LocationApi :=
  match OS dev with
  | web => None
  | _ => Some (expoLocation dev)
  end.

(** The state of the component; [opened] records the addresses handed to
    [Linking.openURL]. *)
Record Screen := {
  appState : AppState;
  userLocation : option Coordinates;
  selectedHospital : option Hospital;
  locationPermission : option bool;
  sortMode : SortMode;
  showPostalCodeInput : bool;
  postalCode : jsstring;
  locationSource : option LocationSource;
  areaName : jsstring;
  opened : list jsstring
}.

Definition setApp (f : AppState -> AppState) (s : Screen) : Screen :=
  {| appState := f (appState s); userLocation := userLocation s;
     selectedHospital := selectedHospital s;
     locationPermission := locationPermission s; sortMode := sortMode s;
     showPostalCodeInput := showPostalCodeInput s;
     postalCode := postalCode s; locationSource := locationSource s;
     areaName := areaName s; opened := opened s |}.

Definition setUserLocation (v : option Coordinates) (s : Screen) : Screen :=
  {| appState := appState s; userLocation := v;
     selectedHospital := selectedHospital s;
     locationPermission := locationPermission s; sortMode := sortMode s;
     showPostalCodeInput := showPostalCodeInput s;
     postalCode := postalCode s; locationSource := locationSource s;
     areaName := areaName s; opened := opened s |}.

Definition setLocationPermission (v : bool) (s : Screen) : Screen :=
  {| appState := appState s; userLocation := userLocation s;
     selectedHospital := selectedHospital s;
     locationPermission := Some v; sortMode := sortMode s;
     showPostalCodeInput := showPostalCodeInput s;
     postalCode := postalCode s; locationSource := locationSource s;
     areaName := areaName s; opened := opened s |}.

Definition setSortMode (v : SortMode) (s : Screen) : Screen :=
  {| appState := appState s; userLocation := userLocation s;
     selectedHospital := selectedHospital s;
     locationPermission := locationPermission s; sortMode := v;
     showPostalCodeInput := showPostalCodeInput s;
     postalCode := postalCode s; locationSource := locationSource s;
     areaName := areaName s; opened := opened s |}.

Definition setShowPostalCodeInput (v : bool) (s : Screen) : Screen :=
  {| appState := appState s; userLocation := userLocation s;
     selectedHospital := selectedHospital s;
     locationPermission := locationPermission s; sortMode := sortMode s;
     showPostalCodeInput := v;
     postalCode := postalCode s; locationSource := locationSource s;
     areaName := areaName s; opened := opened s |}.

Definition setPostalCode (v : jsstring) (s : Screen) : Screen :=
  {| appState := appState s; userLocation := userLocation s;
     selectedHospital := selectedHospital s;
     locationPermission := locationPermission s; sortMode := sortMode s;
     showPostalCodeInput := showPostalCodeInput s;
     postalCode := v; locationSource := locationSource s;
     areaName := areaName s; opened := opened s |}.

Definition setLocationSource (v : LocationSource) (s : Screen) : Screen :=
  {| appState := appState s; userLocation := userLocation s;
     selectedHospital := selectedHospital s;
     locationPermission := locationPermission s; sortMode := sortMode s;
     showPostalCodeInput := showPostalCodeInput s;
     postalCode := postalCode s; locationSource := Some v;
     areaName := areaName s; opened := opened s |}.

Definition setAreaName (v : jsstring) (s : Screen) : Screen :=
  {| appState := appState s; userLocation := userLocation s;
     selectedHospital := selectedHospital s;
     locationPermission := locationPermission s; sortMode := sortMode s;
     showPostalCodeInput := showPostalCodeInput s;
     postalCode := postalCode s; locationSource := locationSource s;
     areaName := v; opened := opened s |}.

Definition addOpened (url : jsstring) (s : Screen) : Screen :=
  {| appState := appState s; userLocation := userLocation s;
     selectedHospital := selectedHospital s;
     locationPermission := locationPermission s; sortMode := sortMode s;
     showPostalCodeInput := showPostalCodeInput s;
     postalCode := postalCode s; locationSource := locationSource s;
     areaName := areaName s; opened := opened s ++ [url] |}.

(** A handler runs on the state of the screen, which keeps the updates
    made before an exception. *)
Definition SM (A : Type) : Type :=
  Screen -> network -> list request -> completion A * Screen * list request.

Definition sret {A} (a : A) : SM A := fun s _ log => (Normal a, s, log).

Definition sthrow {A} : SM A := fun s _ log => (Thrown, s, log).

Definition sbind {A B} (m : SM A) (k : A -> SM B) : SM B :=
  fun s net log =>
    match m s net log with
    | (Normal a, s', log') => k a s' net log'
    | (Thrown, s', log') => (Thrown, s', log')
    end.

Definition stry {A} (m : SM A) (h : SM A) : SM A :=
  fun s net log =>
    match m s net log with
    | (Normal a, s', log') => (Normal a, s', log')
    | (Thrown, s', log') => h s' net log'
    end.

(** A state setter. *)
Definition update (f : Screen -> Screen) : SM unit :=
  fun s _ log => (Normal tt, f s, log).

(** The state the closure of the handler was created with. *)
Definition current : SM Screen := fun s _ log => (Normal s, s, log).

(** A call of the engine, which does not touch the state. *)
Definition call {A} (m : M A) : SM A :=
  fun s net log => let (c, log') := m net log in (c, s, log').

(** A call of the device, rejecting on [None]. *)
Definition resolve {A} (v : option A) : SM A :=
  match v with
  | Some a => sret a
  | None => sthrow
  end.

Notation "x <~ m ;; k" := (sbind m (fun x => k))
  (at level 61, m at next level, right associativity).
Notation "m ;;; k" := (sbind m (fun _ => k))
  (at level 61, right associativity).

Definition Alert_alert (title message : string) : SM unit :=
  update (setApp (alert (js title) (js message))).

Section Handlers.

Context (parseFloat : jsstring -> Q) (provider : TravelTimeProvider)
        (dev : device).

(** [fetchNearbyHospitals] with the sort mode of the closure, writing the
    hospitals, the flags and the alerts of the screen. Its own [try]
    catches every exception, so the second branch is never taken. *)
Definition fetchNearby (lat lng : Q) : SM unit :=
  fun s net log =>
    match fetchNearbyHospitals provider (sortMode s) lat lng (appState s) net log with
    | (Normal st, log') => (Normal tt, setApp (fun _ => st) s, log')
    | (Thrown, log') => (Thrown, s, log')
    end.

Definition initializeLocation (lat lng : Q) : SM unit :=
  (* Get area name *)
  area <~ call (reverseGeocode lat lng) ;;
  update (setAreaName area) ;;;
  (* Fetch hospitals *)
  fetchNearby lat lng.

Definition getUserLocationAndFetchHospitals : SM unit :=
  stry
    (api <~ resolve (Location dev) ;;
     location <~ resolve (getCurrentPositionAsync api) ;;
     update (setUserLocation (Some location)) ;;;
     initializeLocation (lat location) (lng location))
    (Alert_alert "Error" "Unable to get your current location" ;;;
     update (setApp (setLoading false)) ;;;
     update (setShowPostalCodeInput true)).

Definition requestLocationPermission : SM unit :=
  stry
    (api <~ resolve (Location dev) ;;
     status <~ resolve (requestForegroundPermissionsAsync api) ;;
     let granted := JsString.eqb status (js "granted") in
     update (setLocationPermission granted) ;;;
     if granted then
       update (setLocationSource gps) ;;;
       getUserLocationAndFetchHospitals
     else
       update (setApp (setLoading false)))
    (update (setApp (setLoading false))).

(** The effect run once when the screen is mounted. *)
Definition onMount : SM unit :=
  match OS dev with
  | web =>
      (* Use default Toronto location for web *)
      let defaultLocation :=
        {| lat := 436532 # 10000; lng := - (793832 # 10000) |} in
      update (setUserLocation (Some defaultLocation)) ;;;
      update (setLocationPermission true) ;;;
      update (setLocationSource gps) ;;;
      initializeLocation (lat defaultLocation) (lng defaultLocation)
  | _ => requestLocationPermission
  end.

(** The effect run when the sort mode changes. *)
Definition onSortModeChange : SM unit :=
  s <~ current ;;
  if (0 <? length (hospitals (appState s)))%nat then
    let sorted := sortHospitals (hospitals (appState s)) (sortMode s) in
    update (setApp (setHospitals sorted))
  else sret tt.

Definition handlePostalCodeSubmit : SM unit :=
  s <~ current ;;
  if negb (validateOntarioPostalCode (postalCode s)) then
    Alert_alert "Invalid Postal Code"
      "Please enter a valid Ontario postal code (e.g., K1A 0B1)"
  else
    update (setApp (setLoading true)) ;;;
    update (setShowPostalCodeInput false) ;;;
    coordinates <~ call (geocodePostalCode parseFloat (postalCode s)) ;;
    match coordinates with
    | Some c =>
        update (setUserLocation (Some c)) ;;;
        update (setLocationSource postal) ;;;
        initializeLocation (lat c) (lng c)
    | None =>
        update (setApp (setLoading false)) ;;;
        Alert_alert "Error"
          "Unable to find coordinates for this postal code. Please try again."
    end.

Definition handlePostalCodeChange (text : jsstring) : SM unit :=
  let formatted := formatPostalCode text in
  update (setPostalCode formatted).

Definition onRefresh : SM unit :=
  s <~ current ;;
  match userLocation s with
  | Some location =>
      update (setApp (setRefreshing true)) ;;;
      fetchNearby (lat location) (lng location)
  | None => sret tt
  end.

(** The button "Use GPS Location" of the location dialog. *)
Definition onUseGpsLocation : SM unit :=
  update (setShowPostalCodeInput false) ;;;
  update (setApp (setLoading true)) ;;;
  requestLocationPermission.

Definition callHospital (phone : jsstring) : SM unit :=
  let url := phoneUrl phone in
  update (addOpened url) ;;;
  if openURL dev url then sret tt
  else Alert_alert "Error" "Unable to make phone call".

End Handlers.

(* ================================================================== *)
(** * Vocabulary of the specification *)

(** ** Postal codes *)

(** The pattern of an Ontario postal code, in the words of the
    specification: a letter of K, L, M, N, P, a digit, a letter, at most
    one white-space unit, then digit, letter, digit; letters in either
    case. *)
Definition isLeadingLetter (c : code_unit) : bool := memb c (js "KLMNPklmnp").
Definition isLetter (c : code_unit) : bool := isAsciiUpper c || isAsciiLower c.
Definition isDigit (c : code_unit) : bool := isAsciiDigit c.

Inductive PostalPattern : jsstring -> Prop :=
| pattern_compact (l1 d1 l2 d2 l3 d3 : code_unit) :
    isLeadingLetter l1 = true -> isDigit d1 = true -> isLetter l2 = true ->
    isDigit d2 = true -> isLetter l3 = true -> isDigit d3 = true ->
    PostalPattern [l1; d1; l2; d2; l3; d3]
| pattern_spaced (l1 d1 l2 w d2 l3 d3 : code_unit) :
    isLeadingLetter l1 = true -> isDigit d1 = true -> isLetter l2 = true ->
    isWhiteSpace w = true ->
    isDigit d2 = true -> isLetter l3 = true -> isDigit d3 = true ->
    PostalPattern [l1; d1; l2; w; d2; l3; d3].

Definition AllWhiteSpace (s : jsstring) : Prop :=
  Forall (fun c => isWhiteSpace c = true) s.

(** A text matches once the white space around it is ignored. *)
Definition MatchesIgnoringSpace (s : jsstring) : Prop :=
  exists before core after,
    s = before ++ core ++ after /\
    AllWhiteSpace before /\ AllWhiteSpace after /\ PostalPattern core.

(** The same shape as a boolean function of four classes. *)
Definition shapeb (pl pd pa pw : code_unit -> bool) (s : jsstring) : bool :=
  match s with
  | [c1; c2; c3; c4; c5; c6] =>
      pl c1 && pd c2 && pa c3 && pd c4 && pa c5 && pd c6
  | [c1; c2; c3; w; c4; c5; c6] =>
      pl c1 && pd c2 && pa c3 && pw w && pd c4 && pa c5 && pd c6
  | _ => false
  end.

(** Every unit a class can match without regard to case. *)
Definition classSupport (members : list code_unit) : list code_unit :=
  map (RegExp.canonicalize true) members
    ++ map (fun a => (RegExp.canonicalize true a + 32)%N) members.

(** Letters and digits, and the upper-case form of a letter. *)
Definition isAlnum (c : code_unit) : bool := isLetter c || isDigit c.

Definition isUpperAlnum (c : code_unit) : bool := negb (notUpperAlnum c).

Definition upper (c : code_unit) : code_unit :=
  if isAsciiLower c then (c - 32)%N else c.

Definition AllAscii (s : jsstring) : Prop :=
  Forall (fun c => isAscii c = true) s.

(** One space after the third unit once there are at least four. *)
Definition insertSpace (rest : jsstring) : jsstring :=
  if (4 <=? length rest)%nat
  then firstn 3 rest ++ js " " ++ skipn 3 rest
  else rest.

(** Formatting in the words of the specification: strip what is not a
    letter or a digit, upper-case the remainder, insert the space. *)
Definition format_as_specified (s : jsstring) : jsstring :=
  insertSpace (toUpperCase (filter isAlnum s)).

(** What is left of one unit after upper-casing and stripping. *)
Definition cleanedUnit (c : code_unit) : jsstring :=
  filter isUpperAlnum (upperUnit c).

(** ** Ranking *)

(** A comparator that subtracts keys. *)
Definition byKey {A} (key : A -> Q) : A -> A -> Q :=
  fun a b => key a - key b.

(** The list is non-decreasing in a key. *)
Definition NonDecreasing {A} (key : A -> Q) (l : list A) : Prop :=
  Sorted (fun a b => key a <= key b) l.

(** The key of each mode. *)
Definition sortKey (mode : SortMode) (h : Hospital) : Q :=
  match mode with
  | travelTime => orZero (travelTimeMinutes h)
  | waitTime => currentWaitTime h
  | combined => orZero (totalTimeMinutes h)
  end.

(** Travel time plus wait time, an absent travel time counting as 0. *)
Definition travelPlusWait (h : Hospital) : Q :=
  orZero (travelTimeMinutes h) + currentWaitTime h.

(** The invariant of an enriched record: both times are attached and the
    total is their sum with the wait. *)
Definition Enriched (h : Hospital) : Prop :=
  exists t total,
    travelTimeMinutes h = Some t /\ totalTimeMinutes h = Some total /\
    total == t + currentWaitTime h.

(** A record for examples: only the times and the name vary. *)
Definition hospital (label : string) (wait : Q) (travel total : option Q)
  : Hospital :=
  {| id := js label; name := js label; address := []; city := [];
     coordinates := {| lat := 0; lng := 0 |};
     currentWaitTime := wait; lastUpdated := []; phone := [];
     services := []; distance := None; score := None;
     travelTimeMinutes := travel; totalTimeMinutes := total |}.

(** ** Travel time *)

Definition routingRequest (from to : Coordinates) : request :=
  CalculateTravelTime (lat from) (lng from) (lat to) (lng to).

(** The ways the routing call raises inside the provider: [fetch] rejects,
    the status is not a success (the provider throws), the body is not
    JSON, or it is [null] (reading its member is a TypeError). *)
Inductive RoutingFails (net : network) (from to : Coordinates) : Prop :=
| fails_network_error :
    routing net (routingRequest from to) = NetworkError ->
    RoutingFails net from to
| fails_status (p : body jsonValue) :
    routing net (routingRequest from to)
    = Resolves {| ok := false; payload := p |} ->
    RoutingFails net from to
| fails_not_json :
    routing net (routingRequest from to)
    = Resolves {| ok := true; payload := NotJson |} ->
    RoutingFails net from to
| fails_null :
    routing net (routingRequest from to)
    = Resolves {| ok := true; payload := JsonNull |} ->
    RoutingFails net from to
| fails_null_value :
    routing net (routingRequest from to)
    = Resolves {| ok := true; payload := Json JNull |} ->
    RoutingFails net from to.

(** [Math.round((distanceKm / 40) * 60)] *)
Definition estimate (host : arithmetic) (distanceKm : Q) : Q :=
  Math_round host (times host (divide host distanceKm 40) 60).

(** A stand-in for the host in examples: the three operations on the
    rationals, without the rounding of doubles. *)
Definition exactArithmetic : arithmetic :=
  {| divide := Qdiv;
     times := Qmult;
     Math_round := fun x => inject_Z (Qfloor (x + (1 # 2))) |}.

(** The provider of the examples: the estimated one over the stand-in. *)
Definition exampleProvider : TravelTimeProvider := Estimated exactArithmetic.

(** The routing service answering one body to every request. *)
Definition routingAnswers (b : jsonValue) (net : network) : network :=
  {| search := search net;
     geocoderCa := geocoderCa net;
     reverse := reverse net;
     routing := fun _ => Resolves {| ok := true; payload := Json b |};
     nearby := nearby net |}.

(** [data.duration] on a parsed body that is not [null]. *)
Definition durationOf (data : jsonValue) : value :=
  match data with
  | JObject members => lookupMember (js "duration") members
  | _ => Undefined
  end.

Definition isNull (data : jsonValue) : bool :=
  match data with
  | JNull => true
  | _ => false
  end.

(** Whether a value is a number. *)
Definition isNumber (v : value) : bool :=
  match v with
  | Value (JNumber _) => true
  | _ => false
  end.

(** A parsed body that is not [null] and holds no number under
    [duration]: [{}], [42], [{ duration: "12" }]. *)
Definition lacksDuration (data : jsonValue) : bool :=
  negb (isNull data) && negb (isNumber (durationOf data)).

(** A network on which every request fails. *)
Definition offline : network :=
  {| search := fun _ => NetworkError;
     geocoderCa := fun _ => NetworkError;
     reverse := fun _ => NetworkError;
     routing := fun _ => NetworkError;
     nearby := fun _ => NetworkError |}.

(** ** Enrichment *)

(** A candidate with the two times attached. *)
Definition attach (h : Hospital) (t : Q) : Hospital :=
  {| id := id h; name := name h; address := address h; city := city h;
     coordinates := coordinates h; currentWaitTime := currentWaitTime h;
     lastUpdated := lastUpdated h; phone := phone h;
     services := services h; distance := distance h; score := score h;
     travelTimeMinutes := Some t;
     totalTimeMinutes := Some (t + currentWaitTime h) |}.

(** Two candidates carrying a distance, and a network on which only the
    backend answers, with these two. *)
Definition twoCandidates : list Hospital :=
  [ {| id := js "h1"; name := js "General"; address := []; city := [];
       coordinates := {| lat := 437 # 10; lng := - (794 # 10) |};
       currentWaitTime := 90; lastUpdated := []; phone := [];
       services := []; distance := Some 4; score := None;
       travelTimeMinutes := None; totalTimeMinutes := None |};
    {| id := js "h2"; name := js "Mercy"; address := []; city := [];
       coordinates := {| lat := 436 # 10; lng := - (793 # 10) |};
       currentWaitTime := 30; lastUpdated := []; phone := [];
       services := []; distance := Some 20; score := None;
       travelTimeMinutes := None; totalTimeMinutes := None |} ].

Definition backendOnly : network :=
  {| search := fun _ => NetworkError;
     geocoderCa := fun _ => NetworkError;
     reverse := fun _ => NetworkError;
     routing := fun _ => NetworkError;
     nearby := fun _ =>
       Resolves {| ok := true; payload := Json twoCandidates |} |}.

Definition emptyState : AppState :=
  {| hospitals := []; loading := true; refreshing := false; alerts := [] |}.

(** ** The provider chain of the geocoder *)

Definition formatted (postalCode : jsstring) : jsstring :=
  replaceRuns isWhiteSpace (js "+") false (trim postalCode).

Definition structuredRequest (postalCode : jsstring) : request :=
  NominatimPostal (formatted postalCode).

Definition freeTextRequest (postalCode : jsstring) : request :=
  NominatimQuery (formatted postalCode ++ js "+Ontario+Canada").

Definition alternateRequest (postalCode : jsstring) : request :=
  GeocoderCa (replaceRuns isWhiteSpace [] false (trim postalCode)).

Definition isAlternate (r : request) : bool :=
  match r with
  | GeocoderCa _ => true
  | _ => false
  end.

(** What one step of the chain comes to: it raises a transport-level
    exception ([fetch] rejects or the body is not JSON), it produces no
    result, or it produces coordinates. *)
Inductive outcome :=
| Raises
| Empty
| Found (c : Coordinates).

Section Chain.

Variable parseFloat : jsstring -> Q.

(** A search step: the coordinates are those of the first candidate. *)
Definition searchOutcome (answer : fetched (list place)) : outcome :=
  match answer with
  | NetworkError => Raises
  | Resolves r =>
      match payload r with
      | NotJson => Raises
      | JsonNull => Empty
      | Json [] => Empty
      | Json (first :: _) =>
          Found {| lat := parseFloat (place_lat first);
                   lng := parseFloat (place_lon first) |}
      end
  end.

(** The alternate step: an answer that is not a success, or that lacks a
    coordinate, is no result. *)
Definition alternateOutcome (answer : fetched geoData) : outcome :=
  match answer with
  | NetworkError => Raises
  | Resolves r =>
      if ok r then
        match payload r with
        | NotJson => Raises
        | JsonNull => Empty
        | Json g =>
            if present (latt g) && present (longt g)
            then Found {| lat := parseFloat (text (latt g));
                          lng := parseFloat (text (longt g)) |}
            else Empty
        end
      else Empty
  end.

Definition structured (net : network) (pc : jsstring) : outcome :=
  searchOutcome (search net (structuredRequest pc)).

Definition freeText (net : network) (pc : jsstring) : outcome :=
  searchOutcome (search net (freeTextRequest pc)).

Definition alternate (net : network) (pc : jsstring) : outcome :=
  alternateOutcome (geocoderCa net (alternateRequest pc)).

Definition result (o : outcome) : option Coordinates :=
  match o with
  | Found c => Some c
  | _ => None
  end.

(** The chain in the words of the specification: a step that raises is
    passed over like a step that is empty. *)
Definition chain_continuing (net : network) (pc : jsstring)
  : option Coordinates :=
  match structured net pc with
  | Found c => Some c
  | _ =>
      match freeText net pc with
      | Found c => Some c
      | _ => result (alternate net pc)
      end
  end.

(** The chain that stops at the first step that raises. *)
Definition chain_aborting (net : network) (pc : jsstring)
  : option Coordinates :=
  match structured net pc with
  | Found c => Some c
  | Raises => None
  | Empty =>
      match freeText net pc with
      | Found c => Some c
      | Raises => None
      | Empty => result (alternate net pc)
      end
  end.

(** The requests a run makes, in order. *)
Definition requestsMade (net : network) (pc : jsstring) : list request :=
  match structured net pc with
  | Empty =>
      match freeText net pc with
      | Empty => [structuredRequest pc; freeTextRequest pc; alternateRequest pc]
      | _ => [structuredRequest pc; freeTextRequest pc]
      end
  | _ => [structuredRequest pc]
  end.

End Chain.

(** A network on which the structured search is down while the free-text
    search would answer one candidate. *)
Definition structuredDown : network :=
  {| search := fun r =>
       match r with
       | NominatimQuery _ =>
           Resolves {| ok := true;
                       payload := Json [ {| place_lat := js "43.64";
                                            place_lon := js "-79.38" |} ] |}
       | _ => NetworkError
       end;
     geocoderCa := fun _ => NetworkError;
     reverse := fun _ => NetworkError;
     routing := fun _ => NetworkError;
     nearby := fun _ => NetworkError |}.

(** A network on which both searches are empty and the alternate provider
    answers. *)
Definition alternateOnly : network :=
  {| search := fun _ => Resolves {| ok := true; payload := Json [] |};
     geocoderCa := fun _ =>
       Resolves {| ok := true;
                   payload := Json {| latt := Some (js "43.64");
                                      longt := Some (js "-79.38") |} |};
     reverse := fun _ => NetworkError;
     routing := fun _ => NetworkError;
     nearby := fun _ => NetworkError |}.

(** A stand-in for [parseFloat] in examples: plain decimal notation, an
    optional minus sign, digits, and an optional fraction. *)
Fixpoint readDigits (s : jsstring) (acc : Z) (scale : positive)
  : Z * positive * jsstring :=
  match s with
  | c :: r =>
      if isAsciiDigit c
      then readDigits r (10 * acc + Z.of_N (c - 0x30)) (10 * scale)
      else (acc, scale, s)
  | [] => (acc, scale, s)
  end.

Definition parseDecimal (s : jsstring) : Q :=
  let (negative, s) :=
    match s with
    | 0x2D%N :: r => (true, r)
    | _ => (false, s)
    end in
  let '(whole, _, s) := readDigits s 0 1 in
  let magnitude :=
    match s with
    | 0x2E%N :: r =>
        let '(fraction, scale, _) := readDigits r 0 1 in
        (whole * Zpos scale + fraction) # scale
    | _ => inject_Z whole
    end in
  if negative then - magnitude else magnitude.

Definition downtown : Coordinates :=
  {| lat := 4364 # 100; lng := - (7938 # 100) |}.

(** ** Area names *)

(** The first of a list of optional members that is present. *)
Fixpoint firstPresent (candidates : list (option jsstring))
  : option jsstring :=
  match candidates with
  | [] => None
  | v :: rest => if present v then Some (text v) else firstPresent rest
  end.

Definition cityName (a : addressFields) : option jsstring :=
  firstPresent [addr_city a; addr_town a; addr_village a; addr_municipality a].

Definition neighbourhoodName (a : addressFields) : option jsstring :=
  firstPresent [addr_suburb a; addr_neighbourhood a; addr_quarter a].

(** The city and the neighbourhood, the latter dropped when it is the
    city. *)
Definition cityAndNeighbourhood (a : addressFields) : list jsstring :=
  match cityName a, neighbourhoodName a with
  | Some c, Some n => if JsString.eqb n c then [c] else [c; n]
  | Some c, None => [c]
  | None, Some n => [n]
  | None, None => []
  end.

Definition isBrampton (c : jsstring) : bool :=
  JsString.eqb (toLowerCase c) (js "brampton").

(** The same parts, followed by the quadrant when the city stands alone
    and is Brampton. *)
Definition partsWithQuadrant (lat lng : Q) (a : addressFields)
  : list jsstring :=
  match cityName a with
  | Some c =>
      if (length (cityAndNeighbourhood a) =? 1)%nat && isBrampton c
      then cityAndNeighbourhood a ++ [quadrant lat lng]
      else cityAndNeighbourhood a
  | None => cityAndNeighbourhood a
  end.

(** The parts joined, or the placeholder when there is none. *)
Definition labelOf (parts : list jsstring) : jsstring :=
  match parts with
  | [] => UnknownArea
  | _ => join (js " - ") parts
  end.

(** The label the resolver gives for an answer of the reverse geocoder. *)
Definition areaLabel (lat lng : Q) (answer : fetched reverseData) : jsstring :=
  match answer with
  | Resolves {| ok := true; payload := Json {| addr := Some a |} |} =>
      labelOf (partsWithQuadrant lat lng a)
  | _ => UnknownArea
  end.

(** The label in the words of the specification: city and neighbourhood
    only. *)
Definition areaLabel_as_specified (answer : fetched reverseData) : jsstring :=
  match answer with
  | Resolves {| ok := true; payload := Json {| addr := Some a |} |} =>
      labelOf (cityAndNeighbourhood a)
  | _ => UnknownArea
  end.

Definition noAddress : addressFields :=
  {| addr_city := None; addr_town := None; addr_village := None;
     addr_municipality := None; addr_suburb := None;
     addr_neighbourhood := None; addr_quarter := None |}.

Definition bramptonAddress : addressFields :=
  {| addr_city := Some (js "Brampton"); addr_town := None;
     addr_village := None; addr_municipality := None; addr_suburb := None;
     addr_neighbourhood := None; addr_quarter := None |}.

Definition answering (a : addressFields) : network :=
  {| search := fun _ => NetworkError;
     geocoderCa := fun _ => NetworkError;
     reverse := fun _ =>
       Resolves {| ok := true; payload := Json {| addr := Some a |} |};
     routing := fun _ => NetworkError;
     nearby := fun _ => NetworkError |}.

(** ** Vocabulary of the further properties *)

(** 2^53: below it in magnitude every whole number is a double. *)
Definition safeBound : Z := 2 ^ 53.


(** What the postal-code field may hold: a capital letter, a digit or a
    space. *)
Definition allowedInField (c : code_unit) : bool :=
  isUpperAlnum c || (c =? 0x20)%N.

(** What is kept of a typed text: its capital letters and digits once
    upper-cased. *)
Definition kept (s : jsstring) : jsstring :=
  filter isUpperAlnum (toUpperCase s).

Definition dialable (c : code_unit) : bool := negb (notDialable c).

(** The ways the call of the backend for nearby hospitals fails. *)
Inductive BackendFails (net : network) (lat lng : Q) : Prop :=
| backend_network_error :
    nearby net (HospitalsNearby lat lng 5) = NetworkError ->
    BackendFails net lat lng
| backend_status (p : body (list Hospital)) :
    nearby net (HospitalsNearby lat lng 5)
    = Resolves {| ok := false; payload := p |} ->
    BackendFails net lat lng
| backend_not_json :
    nearby net (HospitalsNearby lat lng 5)
    = Resolves {| ok := true; payload := NotJson |} ->
    BackendFails net lat lng
| backend_null :
    nearby net (HospitalsNearby lat lng 5)
    = Resolves {| ok := true; payload := JsonNull |} ->
    BackendFails net lat lng.

Definition fetchError : jsstring * jsstring :=
  (js "Error", js "Unable to fetch nearby hospitals").

(** What is left of an answer once its status is forgotten. *)
Definition bodyOf {B} (answer : fetched B) : option (body B) :=
  match answer with
  | NetworkError => None
  | Resolves r => Some (payload r)
  end.

(** A backend that answers with an error status. *)
Definition backendDown : network :=
  {| search := fun _ => NetworkError;
     geocoderCa := fun _ => NetworkError;
     reverse := fun _ => NetworkError;
     routing := fun _ => NetworkError;
     nearby := fun _ => Resolves {| ok := false; payload := NotJson |} |}.

(** A network whose searches answer one candidate under a given status. *)
Definition searchAnswering (okay : bool) : network :=
  {| search := fun _ =>
       Resolves {| ok := okay;
                   payload := Json [ {| place_lat := js "43.64";
                                        place_lon := js "-79.38" |} ] |};
     geocoderCa := fun _ => NetworkError;
     reverse := fun _ => NetworkError;
     routing := fun _ => NetworkError;
     nearby := fun _ => NetworkError |}.

(** A screen before anything was resolved, with a text in the field. *)
Definition screenWith (typed : string) : Screen :=
  {| appState := {| hospitals := twoCandidates; loading := false;
                    refreshing := false; alerts := [] |};
     userLocation := None; selectedHospital := None;
     locationPermission := None; sortMode := combined;
     showPostalCodeInput := true; postalCode := js typed;
     locationSource := None; areaName := []; opened := [] |}.


(** A screen showing two enriched records, out of order for its mode. *)
Definition rankedScreen : Screen :=
  setApp (setHospitals [hospital "b" 30 (Some 12) (Some 42);
                        hospital "a" 5 (Some 20) (Some 25)])
         (screenWith "").

Definition invalidCodeAlert : jsstring * jsstring :=
  (js "Invalid Postal Code",
   js "Please enter a valid Ontario postal code (e.g., K1A 0B1)").

Definition notFoundAlert : jsstring * jsstring :=
  (js "Error",
   js "Unable to find coordinates for this postal code. Please try again.").

Definition noPositionAlert : jsstring * jsstring :=
  (js "Error", js "Unable to get your current location").

(** A phone whose location module grants the permission but cannot give
    a position. *)
Definition noPosition : device :=
  {| OS := android;
     expoLocation := {| requestForegroundPermissionsAsync := Some (js "granted");
                        getCurrentPositionAsync := None |};
     openURL := fun _ => true |}.

(** A phone on which the permission is denied. *)
Definition denied : device :=
  {| OS := ios;
     expoLocation := {| requestForegroundPermissionsAsync := Some (js "denied");
                        getCurrentPositionAsync := Some downtown |};
     openURL := fun _ => true |}.

(** A browser. *)
Definition browser : device :=
  {| OS := web;
     expoLocation := {| requestForegroundPermissionsAsync := None;
                        getCurrentPositionAsync := None |};
     openURL := fun _ => true |}.

Definition toronto : Coordinates :=
  {| lat := 436532 # 10000; lng := - (793832 # 10000) |}.

(** The ways the permission to locate is not obtained: there is no
    location module (the web), the request rejects, or the status is not
    "granted". *)
Inductive NotGranted (dev : device) : option bool -> Prop :=
| no_module : Location dev = None -> NotGranted dev None
| request_rejects api :
    Location dev = Some api ->
    requestForegroundPermissionsAsync api = None ->
    NotGranted dev None
| status_not_granted api status :
    Location dev = Some api ->
    requestForegroundPermissionsAsync api = Some status ->
    JsString.eqb status (js "granted") = false ->
    NotGranted dev (Some false).

(* ================================================================== *)
(** * Properties *)

(** ** Classes of code units *)

Lemma memb_In (c : code_unit) (l : list code_unit) :
  memb c l = true <-> In c l.
Proof.
  unfold memb. rewrite existsb_exists. split.
  - intros [x [Hin Heq]]. apply N.eqb_eq in Heq. now subst.
  - intros Hin. exists c. split; [assumption | apply N.eqb_refl].
Qed.

Lemma in_units (lo hi c : N) :
  (lo <= c)%N -> (c <= hi)%N -> In c (units lo hi).
Proof.
  intros Hlo Hhi. unfold units. apply in_map_iff.
  exists (N.to_nat (c - lo)). split.
  - rewrite N2Nat.id. lia.
  - apply in_seq. lia.
Qed.

(** Two predicates that hold only inside a finite set agree everywhere as
    soon as they agree on the set. *)
Lemma agree_on_support (S : list code_unit) (f g : code_unit -> bool) :
  (forall c, f c = true -> In c S) ->
  (forall c, g c = true -> In c S) ->
  forallb (fun c => Bool.eqb (f c) (g c)) S = true ->
  forall c, f c = g c.
Proof.
  intros Hf Hg Hall c. rewrite forallb_forall in Hall.
  destruct (f c) eqn:Ef, (g c) eqn:Eg; try reflexivity.
  - specialize (Hall c (Hf c Ef)). rewrite Ef, Eg in Hall. discriminate.
  - specialize (Hall c (Hg c Eg)). rewrite Ef, Eg in Hall. discriminate.
Qed.

(** What holds on a finite set containing everything a predicate accepts
    holds of everything it accepts. *)
Lemma holds_on_support (S : list code_unit) (f g : code_unit -> bool) :
  (forall c, f c = true -> In c S) ->
  forallb (fun c => implb (f c) (g c)) S = true ->
  forall c, f c = true -> g c = true.
Proof.
  intros Hf Hall c Ef. rewrite forallb_forall in Hall.
  specialize (Hall c (Hf c Ef)). now rewrite Ef in Hall.
Qed.

Lemma classMatches_support (members : list code_unit) (c : code_unit) :
  RegExp.classMatches true members c = true -> In c (classSupport members).
Proof.
  unfold RegExp.classMatches, classSupport. rewrite existsb_exists.
  intros [a [Hin Heq]]. apply N.eqb_eq in Heq. apply in_or_app.
  unfold RegExp.canonicalize in Heq at 2. simpl in Heq.
  destruct (isAsciiLower c) eqn:El.
  - right. apply in_map_iff. exists a. split; [| assumption].
    unfold isAsciiLower in El. apply andb_prop in El. destruct El as [E1 _].
    apply N.leb_le in E1. lia.
  - left. apply in_map_iff. exists a. split; assumption.
Qed.

Lemma isDigit_support c : isDigit c = true -> In c (units 0x30 0x39).
Proof.
  unfold isDigit, isAsciiDigit. intros H. apply andb_prop in H.
  destruct H as [H1 H2]. apply N.leb_le in H1, H2. now apply in_units.
Qed.

Lemma isLetter_support c :
  isLetter c = true -> In c (units 0x41 0x5A ++ units 0x61 0x7A).
Proof.
  unfold isLetter, isAsciiUpper, isAsciiLower. intros H.
  apply orb_prop in H. apply in_or_app.
  destruct H as [H | H]; apply andb_prop in H; destruct H as [H1 H2];
    apply N.leb_le in H1, H2; [left | right]; now apply in_units.
Qed.

Lemma isLeadingLetter_support c :
  isLeadingLetter c = true -> In c (js "KLMNPklmnp").
Proof. apply memb_In. Qed.

Lemma isWhiteSpace_support c : isWhiteSpace c = true -> In c whiteSpaceUnits.
Proof. apply memb_In. Qed.

(** Both sides hold only inside a finite set: compare them there. *)
Ltac agree_on members others support :=
  apply (agree_on_support (classSupport members ++ others));
  [ intros ? ?; apply in_or_app; left; now apply classMatches_support
  | intros ? ?; apply in_or_app; right; now apply support
  | vm_compute; reflexivity ].

(** The premise holds only inside a finite set: check the conclusion
    there. *)
Ltac check_on members support :=
  apply (holds_on_support members); [apply support | vm_compute; reflexivity].

Lemma class_leading c :
  RegExp.classMatches true (js "KLMNP") c = isLeadingLetter c.
Proof.
  revert c.
  agree_on (js "KLMNP") (js "KLMNPklmnp") isLeadingLetter_support.
Qed.

Lemma class_digit c :
  RegExp.classMatches true (units 0x30 0x39) c = isDigit c.
Proof.
  revert c.
  agree_on (units 0x30 0x39) (units 0x30 0x39) isDigit_support.
Qed.

Lemma class_letter c :
  RegExp.classMatches true (units 0x41 0x5A) c = isLetter c.
Proof.
  revert c.
  agree_on (units 0x41 0x5A) (units 0x41 0x5A ++ units 0x61 0x7A)
           isLetter_support.
Qed.

Lemma class_space c :
  RegExp.classMatches true whiteSpaceUnits c = isWhiteSpace c.
Proof.
  revert c.
  agree_on whiteSpaceUnits whiteSpaceUnits isWhiteSpace_support.
Qed.

Lemma leading_not_space c : isLeadingLetter c = true -> isWhiteSpace c = false.
Proof.
  intros H. apply negb_true_iff. revert c H.
  check_on (js "KLMNPklmnp") isLeadingLetter_support.
Qed.

Lemma digit_not_space c : isDigit c = true -> isWhiteSpace c = false.
Proof.
  intros H. apply negb_true_iff. revert c H.
  check_on (units 0x30 0x39) isDigit_support.
Qed.

(** ** The matcher on the postal pattern *)

Lemma matchTerms_shape (ic : bool) (L D A W : list code_unit) (s : jsstring) :
  RegExp.matchTerms ic
    [RegExp.One L; RegExp.One D; RegExp.One A; RegExp.Opt W;
     RegExp.One D; RegExp.One A; RegExp.One D] s
  = shapeb (RegExp.classMatches ic L) (RegExp.classMatches ic D)
           (RegExp.classMatches ic A) (RegExp.classMatches ic W) s.
Proof.
  destruct s as [|c1 [|c2 [|c3 [|c4 [|c5 [|c6 [|c7 [|c8 r]]]]]]]];
    cbn [RegExp.matchTerms shapeb];
    repeat match goal with
           | |- context [RegExp.classMatches ic ?m ?c] =>
               destruct (RegExp.classMatches ic m c)
           end;
    reflexivity.
Qed.

Lemma shapeb_ext (pl pd pa pw pl' pd' pa' pw' : code_unit -> bool) s :
  (forall c, pl c = pl' c) -> (forall c, pd c = pd' c) ->
  (forall c, pa c = pa' c) -> (forall c, pw c = pw' c) ->
  shapeb pl pd pa pw s = shapeb pl' pd' pa' pw' s.
Proof.
  intros Hl Hd Ha Hw.
  destruct s as [|c1 [|c2 [|c3 [|c4 [|c5 [|c6 [|c7 [|c8 r]]]]]]]];
    cbn [shapeb]; rewrite ?Hl, ?Hd, ?Ha, ?Hw; reflexivity.
Qed.

Lemma test_ontario (s : jsstring) :
  RegExp.test ontarioPostalRegex s
  = shapeb isLeadingLetter isDigit isLetter isWhiteSpace s.
Proof.
  unfold RegExp.test, ontarioPostalRegex.
  cbn [RegExp.pattern RegExp.ignoreCase].
  rewrite matchTerms_shape.
  apply shapeb_ext; intro c;
    [apply class_leading | apply class_digit | apply class_letter
     | apply class_space].
Qed.

Lemma shapeb_pattern (s : jsstring) :
  shapeb isLeadingLetter isDigit isLetter isWhiteSpace s = true
  <-> PostalPattern s.
Proof.
  split.
  - destruct s as [|c1 [|c2 [|c3 [|c4 [|c5 [|c6 [|c7 [|c8 r]]]]]]]];
      cbn [shapeb]; try discriminate; intros H;
      repeat (apply andb_prop in H; destruct H as [H ?]);
      constructor; assumption.
  - intros H. destruct H; cbn [shapeb];
      repeat match goal with E : _ = true |- _ => rewrite E; clear E end;
      reflexivity.
Qed.

(** ** Trimming *)

Lemma trimStart_decomp (s : jsstring) :
  exists a, s = a ++ trimStart s /\ AllWhiteSpace a.
Proof.
  induction s as [|c r IH]; cbn [trimStart].
  - exists []. split; [reflexivity | constructor].
  - destruct (isWhiteSpace c) eqn:Ec.
    + destruct IH as [a [Heq Hws]]. exists (c :: a). split.
      * cbn. now rewrite <- Heq.
      * now constructor.
    + exists []. split; [reflexivity | constructor].
Qed.

Lemma trimStart_skip (a t : jsstring) :
  AllWhiteSpace a -> trimStart (a ++ t) = trimStart t.
Proof.
  induction 1 as [|c a Hc _ IH]; cbn [app trimStart]; [reflexivity |].
  now rewrite Hc.
Qed.

Lemma trimStart_stop (c : code_unit) (t : jsstring) :
  isWhiteSpace c = false -> trimStart (c :: t) = c :: t.
Proof. intros Hc. cbn [trimStart]. now rewrite Hc. Qed.

Lemma AllWhiteSpace_rev (a : jsstring) : AllWhiteSpace a -> AllWhiteSpace (rev a).
Proof. unfold AllWhiteSpace. apply Forall_rev. Qed.

Lemma trimEnd_decomp (s : jsstring) :
  exists b, s = trimEnd s ++ b /\ AllWhiteSpace b.
Proof.
  unfold trimEnd. destruct (trimStart_decomp (rev s)) as [a [Heq Hws]].
  exists (rev a). split.
  - rewrite <- rev_app_distr, <- Heq. now rewrite rev_involutive.
  - now apply AllWhiteSpace_rev.
Qed.

Lemma trim_decomp (s : jsstring) :
  exists a b, s = a ++ trim s ++ b /\ AllWhiteSpace a /\ AllWhiteSpace b.
Proof.
  unfold trim. destruct (trimStart_decomp s) as [a [Ha Wa]].
  destruct (trimEnd_decomp (trimStart s)) as [b [Hb Wb]].
  exists a, b. repeat split; try assumption.
  now rewrite <- Hb.
Qed.

(** Trimming recovers a core that neither starts nor ends with white
    space. *)
Lemma trim_core (a b mid : jsstring) (c d : code_unit) :
  AllWhiteSpace a -> AllWhiteSpace b ->
  isWhiteSpace c = false -> isWhiteSpace d = false ->
  trim (a ++ (c :: mid ++ [d]) ++ b) = c :: mid ++ [d].
Proof.
  intros Wa Wb Hc Hd. unfold trim, trimEnd.
  rewrite trimStart_skip by assumption.
  cbn [app]. rewrite trimStart_stop by assumption.
  change (c :: (mid ++ [d]) ++ b) with ((c :: mid ++ [d]) ++ b).
  rewrite rev_app_distr.
  rewrite trimStart_skip by now apply AllWhiteSpace_rev.
  change (c :: mid ++ [d]) with ((c :: mid) ++ [d]).
  rewrite rev_app_distr. cbn [rev app].
  rewrite trimStart_stop by assumption.
  change (d :: rev mid ++ [c]) with ([d] ++ rev (c :: mid)).
  rewrite rev_app_distr, rev_involutive. reflexivity.
Qed.

Lemma trim_pattern (a b core : jsstring) :
  AllWhiteSpace a -> AllWhiteSpace b -> PostalPattern core ->
  trim (a ++ core ++ b) = core.
Proof.
  intros Wa Wb Hp. destruct Hp.
  - apply trim_core with (mid := [d1; l2; d2; l3]); try assumption.
    + now apply leading_not_space.
    + now apply digit_not_space.
  - apply trim_core with (mid := [d1; l2; w; d2; l3]); try assumption.
    + now apply leading_not_space.
    + now apply digit_not_space.
Qed.

Lemma validate_shape (s : jsstring) :
  validateOntarioPostalCode s = true <-> PostalPattern (trim s).
Proof.
  unfold validateOntarioPostalCode. rewrite test_ontario.
  apply shapeb_pattern.
Qed.

Lemma validate_matches (s : jsstring) :
  validateOntarioPostalCode s = true <-> MatchesIgnoringSpace s.
Proof.
  rewrite validate_shape. split.
  - intros Hp. destruct (trim_decomp s) as [a [b [Heq [Wa Wb]]]].
    exists a, (trim s), b. repeat split; assumption.
  - intros [a [core [b [Heq [Wa [Wb Hp]]]]]]. subst s.
    now rewrite trim_pattern.
Qed.

(** C6. For every text, [validateOntarioPostalCode] answers [true] exactly
    when the text, white space around it ignored, matches
    [[KLMNP]\d[A-Z]\s?\d[A-Z]\d] in either case; "K1A0B1" and "k1a 0b1"
    are accepted, "A1A 1A1" and "K1A 0B" are refused. The function is
    total: it answers a boolean on every text. *)
Theorem validateOntarioPostalCode_spec :
  (forall s, validateOntarioPostalCode s = true <-> MatchesIgnoringSpace s)
  /\ (forall s, validateOntarioPostalCode s = false <-> ~ MatchesIgnoringSpace s)
  /\ validateOntarioPostalCode (js "K1A0B1") = true
  /\ validateOntarioPostalCode (js "k1a 0b1") = true
  /\ validateOntarioPostalCode (js "A1A 1A1") = false
  /\ validateOntarioPostalCode (js "K1A 0B") = false.
Proof.
  split; [exact validate_matches |].
  split.
  - intros s. rewrite <- validate_matches.
    destruct (validateOntarioPostalCode s); split; intro H;
      try reflexivity; try discriminate; try (now elim H).
  - repeat split; vm_compute; reflexivity.
Qed.

(** ** Formatting *)

Lemma eqb_eq (a b : jsstring) : JsString.eqb a b = true <-> a = b.
Proof.
  revert b. induction a as [|x a IH]; intros [|y b]; cbn [JsString.eqb];
    try (split; [discriminate | discriminate]); try tauto.
  rewrite andb_true_iff, N.eqb_eq, IH. split.
  - intros [-> ->]. reflexivity.
  - intros H. injection H. auto.
Qed.

Lemma replaceEach_strip (p : code_unit -> bool) (s : jsstring) :
  replaceEach p [] s = filter (fun c => negb (p c)) s.
Proof.
  unfold replaceEach. induction s as [|c r IH]; cbn [flat_map filter].
  - reflexivity.
  - rewrite IH. now destruct (p c).
Qed.

Lemma cleaned_flat_map (s : jsstring) :
  replaceEach notUpperAlnum [] (toUpperCase s) = flat_map cleanedUnit s.
Proof.
  rewrite replaceEach_strip. unfold toUpperCase.
  induction s as [|c r IH]; cbn [flat_map]; [reflexivity |].
  rewrite filter_app, IH. reflexivity.
Qed.

Lemma isAscii_support c : isAscii c = true -> In c (units 0 127).
Proof.
  unfold isAscii. intros H. apply N.ltb_lt in H. apply in_units; lia.
Qed.

Lemma cleanedUnit_ascii c :
  isAscii c = true ->
  cleanedUnit c = toUpperCase (if isAlnum c then [c] else []).
Proof.
  intros H. apply eqb_eq. revert c H.
  check_on (units 0 127) isAscii_support.
Qed.

Lemma cleaned_ascii (s : jsstring) :
  AllAscii s ->
  filter isUpperAlnum (toUpperCase s) = toUpperCase (filter isAlnum s).
Proof.
  induction 1 as [|c r Hc _ IH]; [reflexivity |].
  unfold toUpperCase in *. cbn [flat_map filter].
  rewrite filter_app, IH.
  fold (cleanedUnit c). rewrite (cleanedUnit_ascii c Hc).
  unfold toUpperCase. destruct (isAlnum c); cbn [flat_map app].
  - now rewrite app_nil_r.
  - reflexivity.
Qed.

Lemma format_first_six (s : jsstring) :
  formatPostalCode s
  = insertSpace (firstn 6 (filter isUpperAlnum (toUpperCase s))).
Proof.
  unfold formatPostalCode, insertSpace, slice.
  rewrite replaceEach_strip. fold isUpperAlnum.
  set (cleaned := filter isUpperAlnum (toUpperCase s)).
  rewrite length_firstn.
  destruct (Nat.ltb_spec 3 (length cleaned)) as [Hlen | Hlen].
  - replace (4 <=? Nat.min 6 (length cleaned))%nat with true
      by (symmetry; apply Nat.leb_le; lia).
    change (3 - 0)%nat with 3%nat. change (6 - 3)%nat with 3%nat.
    change (skipn 0 cleaned) with cleaned.
    rewrite firstn_firstn. change (Nat.min 3 6) with 3%nat.
    rewrite (firstn_skipn_comm 3 3 cleaned). reflexivity.
  - replace (4 <=? Nat.min 6 (length cleaned))%nat with false
      by (symmetry; apply Nat.leb_gt; lia).
    symmetry. apply firstn_all2. lia.
Qed.

(** Upper-casing comes before stripping: a sharp s, which is not an ASCII
    letter, leaves two letters behind. *)
Example format_sharp_s : formatPostalCode [0xDF%N] = js "SS".
Proof. vm_compute. reflexivity. Qed.

(** C7, as stated: refuted. Seven letters and digits are not all kept:
    the text after the space stops at the sixth. *)
Lemma formatPostalCode_not_as_specified :
  formatPostalCode (js "K1A0B1X") = js "K1A 0B1"
  /\ format_as_specified (js "K1A0B1X") = js "K1A 0B1X"
  /\ formatPostalCode (js "K1A0B1X") <> format_as_specified (js "K1A0B1X").
Proof.
  repeat split; try (vm_compute; reflexivity).
  vm_compute. discriminate.
Qed.

(** C7, amended. For every text, [formatPostalCode] upper-cases it, strips
    what is outside A-Z and 0-9, keeps at most the first six units of what
    remains and inserts one space after the third once at least four
    remain; on ASCII text this is stripping what is not a letter or a
    digit first and upper-casing the remainder; "k1a0b1" becomes
    "K1A 0B1". *)
Theorem formatPostalCode_first_six :
  (forall s, formatPostalCode s
             = insertSpace (firstn 6 (filter isUpperAlnum (toUpperCase s))))
  /\ (forall s, AllAscii s ->
                formatPostalCode s
                = insertSpace (firstn 6 (toUpperCase (filter isAlnum s))))
  /\ formatPostalCode (js "k1a0b1") = js "K1A 0B1".
Proof.
  split; [exact format_first_six |].
  split; [| vm_compute; reflexivity].
  intros s Hs. rewrite format_first_six. now rewrite cleaned_ascii.
Qed.

Lemma formatPostalCode_first_six_witness :
  AllAscii (js "k1a-0b1 9z")
  /\ formatPostalCode (js "k1a-0b1 9z")
     = insertSpace (firstn 6 (toUpperCase (filter isAlnum (js "k1a-0b1 9z")))).
Proof.
  assert (H : AllAscii (js "k1a-0b1 9z")) by (repeat constructor).
  split; [exact H |].
  exact (proj1 (proj2 formatPostalCode_first_six) (js "k1a-0b1 9z") H).
Defined.

(** ** Formatting a valid postal code *)

Lemma cleaned_filter (s : jsstring) :
  filter isUpperAlnum (toUpperCase s) = flat_map cleanedUnit s.
Proof.
  rewrite <- cleaned_flat_map, replaceEach_strip. reflexivity.
Qed.

Lemma space_cleaned c : isWhiteSpace c = true -> cleanedUnit c = [].
Proof.
  intros H. apply eqb_eq. revert c H.
  check_on whiteSpaceUnits isWhiteSpace_support.
Qed.

Lemma leading_cleaned c :
  isLeadingLetter c = true ->
  cleanedUnit c = [upper c] /\ isLeadingLetter (upper c) = true.
Proof.
  intros H. rewrite <- eqb_eq. apply andb_true_iff. revert c H.
  check_on (js "KLMNPklmnp") isLeadingLetter_support.
Qed.

Lemma letter_cleaned c :
  isLetter c = true ->
  cleanedUnit c = [upper c] /\ isLetter (upper c) = true.
Proof.
  intros H. rewrite <- eqb_eq. apply andb_true_iff. revert c H.
  check_on (units 0x41 0x5A ++ units 0x61 0x7A) isLetter_support.
Qed.

Lemma digit_cleaned c : isDigit c = true -> cleanedUnit c = [c].
Proof.
  intros H. apply eqb_eq. revert c H.
  check_on (units 0x30 0x39) isDigit_support.
Qed.

Lemma cleaned_whitespace (a : jsstring) :
  AllWhiteSpace a -> flat_map cleanedUnit a = [].
Proof.
  induction 1 as [|c a Hc _ IH]; cbn [flat_map]; [reflexivity |].
  now rewrite (space_cleaned c Hc), IH.
Qed.

(** The six units left of a matching core, upper-cased, still fit the
    classes of the pattern. *)
Lemma cleaned_pattern (core : jsstring) :
  PostalPattern core ->
  exists l1 d1 l2 d2 l3 d3,
    flat_map cleanedUnit core = [l1; d1; l2; d2; l3; d3] /\
    isLeadingLetter l1 = true /\ isDigit d1 = true /\ isLetter l2 = true /\
    isDigit d2 = true /\ isLetter l3 = true /\ isDigit d3 = true.
Proof.
  intros Hp.
  destruct Hp as [l1 d1 l2 d2 l3 d3 H1 H2 H3 H4 H5 H6
                 | l1 d1 l2 w d2 l3 d3 H1 H2 H3 Hw H4 H5 H6];
    destruct (leading_cleaned l1 H1) as [E1 U1];
    destruct (letter_cleaned l2 H3) as [E3 U3];
    destruct (letter_cleaned l3 H5) as [E5 U5];
    exists (upper l1), d1, (upper l2), d2, (upper l3), d3;
    cbn [flat_map];
    rewrite E1, E3, E5, (digit_cleaned d1 H2), (digit_cleaned d2 H4),
      (digit_cleaned d3 H6), ?(space_cleaned w Hw);
    repeat split; assumption || reflexivity.
Qed.

(** C10. Formatting preserves validity: a text that
    [validateOntarioPostalCode] accepts is still accepted once
    [formatPostalCode] has been applied to it. *)
Theorem format_preserves_validity (s : jsstring) :
  validateOntarioPostalCode s = true ->
  validateOntarioPostalCode (formatPostalCode s) = true.
Proof.
  intros Hv. apply validate_matches in Hv.
  destruct Hv as [a [core [b [Heq [Wa [Wb Hp]]]]]]. subst s.
  rewrite format_first_six, cleaned_filter, !flat_map_app.
  rewrite (cleaned_whitespace Wa), (cleaned_whitespace Wb), app_nil_r.
  destruct (cleaned_pattern Hp)
    as [l1 [d1 [l2 [d2 [l3 [d3 [E [H1 [H2 [H3 [H4 [H5 H6]]]]]]]]]]]].
  cbn [app]. rewrite E.
  change (insertSpace (firstn 6 [l1; d1; l2; d2; l3; d3]))
    with [l1; d1; l2; 0x20%N; d2; l3; d3].
  apply validate_matches.
  exists [], [l1; d1; l2; 0x20%N; d2; l3; d3], [].
  repeat split; try constructor; try assumption.
  reflexivity.
Qed.

Lemma format_preserves_validity_witness :
  validateOntarioPostalCode (js " k1a 0b1 ") = true
  /\ validateOntarioPostalCode (formatPostalCode (js " k1a 0b1 ")) = true.
Proof.
  assert (H : validateOntarioPostalCode (js " k1a 0b1 ") = true)
    by (vm_compute; reflexivity).
  split; [exact H |].
  exact (format_preserves_validity (js " k1a 0b1 ") H).
Defined.

(** ** Sorting *)

Section SortByKey.

Context {A : Type} (key : A -> Q).

Lemma byKey_le (x y : A) :
  Qle_bool (byKey key x y) 0 = true <-> key x <= key y.
Proof. rewrite Qle_bool_iff. unfold byKey. split; intro; lra. Qed.

Lemma byKey_gt (x y : A) :
  Qle_bool (byKey key x y) 0 = false -> key y <= key x.
Proof.
  intros H. destruct (Qlt_le_dec (key y) (key x)) as [Hlt | Hle].
  - lra.
  - apply byKey_le in Hle. congruence.
Qed.

Lemma sort_insert_perm (x : A) (l : list A) :
  Permutation (sort_insert (byKey key) x l) (x :: l).
Proof.
  induction l as [|y l IH]; cbn [sort_insert].
  - reflexivity.
  - destruct (Qle_bool (byKey key x y) 0).
    + reflexivity.
    + rewrite IH. apply perm_swap.
Qed.

Lemma Array_sort_perm (l : list A) :
  Permutation (Array_sort (byKey key) l) l.
Proof.
  induction l as [|x l IH]; cbn [Array_sort fold_right].
  - reflexivity.
  - fold (Array_sort (byKey key) l). rewrite sort_insert_perm.
    now constructor.
Qed.

Lemma sort_insert_hd (x y : A) (l : list A) :
  key y <= key x ->
  HdRel (fun a b => key a <= key b) y l ->
  HdRel (fun a b => key a <= key b) y (sort_insert (byKey key) x l).
Proof.
  intros Hyx Hhd. destruct l as [|z l]; cbn [sort_insert].
  - now constructor.
  - destruct (Qle_bool (byKey key x z) 0).
    + now constructor.
    + inversion Hhd; subst. now constructor.
Qed.

Lemma sort_insert_sorted (x : A) (l : list A) :
  NonDecreasing key l -> NonDecreasing key (sort_insert (byKey key) x l).
Proof.
  unfold NonDecreasing.
  induction 1 as [|y l Hs IH Hhd]; cbn [sort_insert].
  - repeat constructor.
  - destruct (Qle_bool (byKey key x y) 0) eqn:E.
    + constructor; [now constructor |].
      constructor. now apply byKey_le.
    + constructor; [assumption |].
      apply sort_insert_hd; [now apply byKey_gt | assumption].
Qed.

Lemma Array_sort_sorted (l : list A) :
  NonDecreasing key (Array_sort (byKey key) l).
Proof.
  induction l as [|x l IH]; cbn [Array_sort fold_right].
  - constructor.
  - now apply sort_insert_sorted.
Qed.

(** Sorting leaves a list in place when it is already in order. *)
Lemma Array_sort_fixed (l : list A) :
  NonDecreasing key l -> Array_sort (byKey key) l = l.
Proof.
  unfold NonDecreasing.
  induction 1 as [|x l Hs IH Hhd]; cbn [Array_sort fold_right].
  - reflexivity.
  - fold (Array_sort (byKey key) l). rewrite IH.
    destruct Hhd as [|y l Hxy]; cbn [sort_insert]; [reflexivity |].
    apply byKey_le in Hxy. now rewrite Hxy.
Qed.

Lemma Array_sort_idempotent (l : list A) :
  Array_sort (byKey key) (Array_sort (byKey key) l)
  = Array_sort (byKey key) l.
Proof. apply Array_sort_fixed, Array_sort_sorted. Qed.

End SortByKey.

Lemma sortHospitals_byKey (l : list Hospital) (mode : SortMode) :
  sortHospitals l mode = Array_sort (byKey (sortKey mode)) l.
Proof. destruct mode; reflexivity. Qed.

(** Two keys that agree on the members of a list order it alike. *)
Lemma NonDecreasing_ext {A} (k1 k2 : A -> Q) (l : list A) :
  Forall (fun a => k1 a == k2 a) l ->
  NonDecreasing k1 l -> NonDecreasing k2 l.
Proof.
  unfold NonDecreasing. intros Hall Hs. induction Hs as [|x l Hs IH Hhd].
  - constructor.
  - inversion Hall as [|? ? Hx Hl]; subst.
    constructor; [now apply IH |].
    destruct Hhd as [|y l Hxy]; constructor.
    inversion Hl as [|? ? Hy _]; subst. lra.
Qed.

Lemma orZero_value (v : Q) : orZero (Some v) == v.
Proof.
  cbn [orZero]. destruct (Qeq_bool v 0) eqn:E; [| reflexivity].
  apply Qeq_bool_iff in E. now symmetry.
Qed.

Lemma Enriched_keys (h : Hospital) :
  Enriched h -> orZero (totalTimeMinutes h) == travelPlusWait h.
Proof.
  intros [t [total [Ht [Htot Hsum]]]]. unfold travelPlusWait.
  rewrite Ht, Htot, !orZero_value. exact Hsum.
Qed.

(** C9. Sorting is idempotent: for every list and every mode, sorting
    the sorted list again in the same mode gives the sorted list. *)
Theorem sortHospitals_idempotent (l : list Hospital) (mode : SortMode) :
  sortHospitals (sortHospitals l mode) mode = sortHospitals l mode.
Proof.
  rewrite !sortHospitals_byKey. apply Array_sort_idempotent.
Qed.

(** The comparator reads the stored total and never the sum: a record
    outside the data model, whose stored total is not its travel time plus
    its wait time, is ranked by the total. *)
Example sortHospitals_combined_reads_total :
  let far := hospital "far" 10 (Some 50) (Some 5) in
  let near := hospital "near" 1 (Some 1) (Some 9) in
  sortHospitals [near; far] combined = [far; near]
  /\ travelPlusWait far == 60 /\ travelPlusWait near == 2
  /\ ~ NonDecreasing travelPlusWait (sortHospitals [near; far] combined).
Proof.
  cbv zeta.
  assert (E : sortHospitals [hospital "near" 1 (Some 1) (Some 9);
                             hospital "far" 10 (Some 50) (Some 5)] combined
              = [hospital "far" 10 (Some 50) (Some 5);
                 hospital "near" 1 (Some 1) (Some 9)])
    by (vm_compute; reflexivity).
  split; [exact E |].
  split; [vm_compute; reflexivity |].
  split; [vm_compute; reflexivity |].
  rewrite E. unfold NonDecreasing. intros Hs.
  inversion Hs as [|? ? _ Hhd]; subst.
  inversion Hhd as [|? ? Hle]; subst.
  vm_compute in Hle. now apply Hle.
Qed.

(** C3. For every list, [sortHospitals] in the combined mode returns a
    reordering of the whole input that is non-decreasing in
    [totalTimeMinutes], an absent value counting as 0; on every list of
    the data model, whose records carry a travel time and a total equal to
    travel time plus wait time (the lists [fetchNearbyHospitals] builds and
    the screen keeps), the result is non-decreasing in travel time plus
    wait time. *)
Theorem sortHospitals_combined_order (l : list Hospital) :
  Permutation (sortHospitals l combined) l
  /\ NonDecreasing (fun h => orZero (totalTimeMinutes h))
       (sortHospitals l combined)
  /\ (Forall Enriched l ->
      NonDecreasing travelPlusWait (sortHospitals l combined)).
Proof.
  rewrite sortHospitals_byKey.
  split; [apply Array_sort_perm |].
  split; [apply (Array_sort_sorted (sortKey combined)) |].
  intros Hall.
  apply NonDecreasing_ext with (k1 := sortKey combined).
  - apply Forall_impl with (P := Enriched).
    + intros h Hh. now apply Enriched_keys.
    + eapply Permutation_Forall; [| exact Hall].
      symmetry. apply Array_sort_perm.
  - apply Array_sort_sorted.
Qed.

Lemma sortHospitals_combined_order_witness :
  let l := [hospital "b" 30 (Some 12) (Some 42);
            hospital "a" 5 (Some 20) (Some 25)] in
  Forall Enriched l
  /\ NonDecreasing travelPlusWait (sortHospitals l combined).
Proof.
  cbv zeta.
  assert (H : Forall Enriched [hospital "b" 30 (Some 12) (Some 42);
                               hospital "a" 5 (Some 20) (Some 25)]).
  { repeat constructor.
    - exists 12, 42. repeat split; reflexivity.
    - exists 20, 25. repeat split; reflexivity. }
  split; [exact H |].
  exact (proj2 (proj2 (sortHospitals_combined_order _)) H).
Defined.

(** ** Travel time *)

Lemma estimated_result (host : arithmetic) (from to : Coordinates) (d : Q)
      net log :
  EstimatedTravelTimeProvider.calculateTravelTime host from to d net log
  = (Normal (estimate host d), log).
Proof. reflexivity. Qed.

(** A success with a parseable body that is not [null] returns what the
    body holds under [duration], a number or not. *)
Lemma realRouting_success (host : arithmetic) (from to : Coordinates) (d : Q)
      net log data :
  routing net (routingRequest from to)
  = Resolves {| ok := true; payload := Json data |} ->
  isNull data = false ->
  RealRoutingTimeProvider.calculateTravelTime host from to d net log
  = (Normal (durationOf data), log ++ [routingRequest from to]).
Proof.
  intros H Hn. unfold RealRoutingTimeProvider.calculateTravelTime.
  unfold try_catch, bind, fetch. fold (routingRequest from to).
  rewrite H. destruct data; try discriminate Hn; reflexivity.
Qed.

(** A call that raises returns the estimate. *)
Lemma realRouting_failure (host : arithmetic) (from to : Coordinates) (d : Q)
      net log :
  RoutingFails net from to ->
  RealRoutingTimeProvider.calculateTravelTime host from to d net log
  = (Normal (Value (JNumber (estimate host d))),
     log ++ [routingRequest from to]).
Proof.
  intros Hf. unfold RealRoutingTimeProvider.calculateTravelTime.
  unfold try_catch, bind, fetch. fold (routingRequest from to).
  destruct Hf as [H | p H | H | H | H]; rewrite H; reflexivity.
Qed.

(** C1, where the code departs from it. When the routing service answers
    a success whose body parses, is not [null] and holds no number under
    [duration] (as the body [{}] does), the real-routing provider completes
    normally and returns what the body holds there, [undefined] when the
    member is missing: it does not return a number, so not the estimate
    [round(distanceKm / 40 * 60)] that the estimated provider returns on
    the same inputs. *)
Theorem realRouting_unchecked_duration
        (host : arithmetic) (net : network) (from to : Coordinates)
        (distanceKm : Q) (log : list request) (data : jsonValue) :
  routing net (routingRequest from to)
  = Resolves {| ok := true; payload := Json data |} ->
  lacksDuration data = true ->
  RealRoutingTimeProvider.calculateTravelTime host from to distanceKm net log
  = (Normal (durationOf data), log ++ [routingRequest from to])
  /\ isNumber (durationOf data) = false
  /\ durationOf data <> Value (JNumber (estimate host distanceKm))
  /\ fst (EstimatedTravelTimeProvider.calculateTravelTime
            host from to distanceKm net log)
     = Normal (estimate host distanceKm).
Proof.
  intros H Hl.
  assert (Hn : isNull data = false /\ isNumber (durationOf data) = false).
  { unfold lacksDuration in Hl. destruct data; try discriminate Hl;
      (split; [reflexivity |]); now apply negb_true_iff in Hl. }
  destruct Hn as [Hn Hd].
  split; [now apply realRouting_success |].
  split; [exact Hd |].
  split; [| reflexivity].
  intros E. rewrite E in Hd. discriminate Hd.
Qed.

Lemma realRouting_unchecked_duration_witness :
  let net := routingAnswers (JObject []) offline in
  let from := {| lat := 0; lng := 0 |} in
  let to := {| lat := 1; lng := 1 |} in
  RealRoutingTimeProvider.calculateTravelTime exactArithmetic from to 40 net []
  = (Normal Undefined, [routingRequest from to])
  /\ fst (EstimatedTravelTimeProvider.calculateTravelTime
            exactArithmetic from to 40 net [])
     = Normal 60.
Proof.
  cbv zeta.
  destruct (@realRouting_unchecked_duration exactArithmetic
              (routingAnswers (JObject []) offline)
              {| lat := 0; lng := 0 |} {| lat := 1; lng := 1 |} 40 []
              (JObject []) eq_refl eq_refl) as [H [_ [_ H']]].
  split; [exact H | exact H'].
Defined.

(** ** Enrichment *)

Lemma attach_Enriched (h : Hospital) (t : Q) : Enriched (attach h t).
Proof.
  exists t, (t + currentWaitTime h). repeat split; reflexivity.
Qed.

Section Enrichment.

Context (provider : TravelTimeProvider).

Lemma withTravelTime_attach (lat lng : Q) (h e : Hospital) net log log' :
  withTravelTime provider lat lng h net log = (Normal e, log') ->
  exists t, e = attach h t.
Proof.
  unfold withTravelTime, bind.
  destruct (calculateTravelTime _ _ _ net log) as [[t |] log1]; intros H.
  - exists t. unfold ret in H. now inversion H.
  - discriminate.
Qed.

Lemma all_withTravelTime (lat lng : Q) (data es : list Hospital) net log log' :
  all (withTravelTime provider lat lng) data net log = (Normal es, log') ->
  Forall2 (fun h e => exists t, e = attach h t) data es.
Proof.
  revert es log log'. induction data as [|h data IH]; intros es log log'.
  - cbn [all]. unfold ret. intros H. inversion H. constructor.
  - cbn [all]. unfold bind at 1.
    destruct (withTravelTime provider lat lng h net log) as [[e |] log1] eqn:E1;
      [| discriminate].
    unfold bind at 1.
    destruct (all (withTravelTime provider lat lng) data net log1)
      as [[es' |] log2] eqn:E2; [| discriminate].
    unfold ret. intros H. inversion H; subst.
    constructor; [now apply withTravelTime_attach in E1 | now apply IH in E2].
Qed.

Lemma hospitalsWithTravelTime_attach (lat lng : Q) (es : list Hospital)
      net log log' :
  hospitalsWithTravelTime provider lat lng net log = (Normal es, log') ->
  exists data,
    nearby net (HospitalsNearby lat lng 5)
    = Resolves {| ok := true; payload := Json data |}
    /\ Forall2 (fun h e => exists t, e = attach h t) data es.
Proof.
  unfold hospitalsWithTravelTime, bind at 1, fetch.
  destruct (nearby net (HospitalsNearby lat lng 5)) as [| [okay pay]];
    [discriminate |].
  destruct okay; cbn [ok negb]; [| discriminate].
  unfold bind at 1, json. cbn [payload].
  destruct pay as [| | data]; try discriminate.
  unfold ret at 1, bind at 1, member, ret at 1.
  intros H. exists data. split; [reflexivity |].
  now apply all_withTravelTime in H.
Qed.

Lemma attached_Enriched (data es : list Hospital) :
  Forall2 (fun h e => exists t, e = attach h t) data es ->
  Forall Enriched es.
Proof.
  induction 1 as [|h e data es [t ->] _ IH]; constructor.
  - apply attach_Enriched.
  - exact IH.
Qed.

End Enrichment.



(** ** The provider chain *)

Section ChainProperties.

Variable parseFloat : jsstring -> Q.

(** A run of the resolver always completes normally; it returns what the
    chain that stops at the first exception returns and makes that chain's
    requests. *)
Lemma geocodePostalCode_chain (pc : jsstring) net log :
  geocodePostalCode parseFloat pc net log
  = (Normal (chain_aborting parseFloat net pc),
     log ++ requestsMade parseFloat net pc).
Proof.
  unfold geocodePostalCode, chain_aborting, requestsMade,
    structured, freeText, alternate.
  fold (formatted pc).
  change (NominatimPostal (formatted pc)) with (structuredRequest pc).
  change (NominatimQuery (formatted pc ++ js "+Ontario+Canada"))
    with (freeTextRequest pc).
  change (GeocoderCa (replaceRuns isWhiteSpace [] false (trim pc)))
    with (alternateRequest pc).
  generalize (structuredRequest pc) (freeTextRequest pc) (alternateRequest pc).
  intros r1 r2 r3.
  unfold try_catch, bind, fetch, json, searchOutcome, alternateOutcome.
  destruct (search net r1) as [| [ok1 [| | [| p1 l1]]]]; cbn;
    try reflexivity;
    destruct (search net r2) as [| [ok2 [| | [| p2 l2]]]]; cbn;
    rewrite <- ?app_assoc; try reflexivity;
    destruct (geocoderCa net r3) as [| [[|] [| | g]]]; cbn;
    rewrite <- ?app_assoc; try reflexivity;
    destruct (present (latt g)), (present (longt g)); reflexivity.
Qed.

End ChainProperties.

Example parseDecimal_downtown :
  {| lat := parseDecimal (js "43.64"); lng := parseDecimal (js "-79.38") |}
  = downtown.
Proof. vm_compute. reflexivity. Qed.

(** C2, as stated: refuted. When the structured search raises, the
    free-text search is never requested, although it would have answered,
    and the resolver returns [null] where the continuing chain finds
    coordinates. *)
Lemma geocodePostalCode_does_not_continue :
  structured parseDecimal structuredDown (js "M5V 3L9") = Raises
  /\ freeText parseDecimal structuredDown (js "M5V 3L9") = Found downtown
  /\ chain_continuing parseDecimal structuredDown (js "M5V 3L9")
     = Some downtown
  /\ run (geocodePostalCode parseDecimal (js "M5V 3L9")) structuredDown
     = (Normal None, [structuredRequest (js "M5V 3L9")])
  /\ fst (run (geocodePostalCode parseDecimal (js "M5V 3L9")) structuredDown)
     <> Normal (chain_continuing parseDecimal structuredDown (js "M5V 3L9")).
Proof.
  repeat split; try (vm_compute; reflexivity).
  vm_compute. discriminate.
Qed.

Section ChainTheorems.

Variable parseFloat : jsstring -> Q.

(** C2, amended. A transport-level exception at a step ends the chain
    there: no later step is requested and the resolver returns [null]; in
    particular an exception of the alternate provider, reached after two
    empty searches, is reported as [null]. The resolver also returns
    [null] when all three steps were empty, and it never throws. *)
Theorem geocodePostalCode_stops_at_exception
        (pc : jsstring) (net : network) (log : list request) :
  (structured parseFloat net pc = Raises ->
   geocodePostalCode parseFloat pc net log
   = (Normal None, log ++ [structuredRequest pc]))
  /\ (structured parseFloat net pc = Empty ->
      freeText parseFloat net pc = Raises ->
      geocodePostalCode parseFloat pc net log
      = (Normal None, log ++ [structuredRequest pc; freeTextRequest pc]))
  /\ (structured parseFloat net pc = Empty ->
      freeText parseFloat net pc = Empty ->
      alternate parseFloat net pc = Raises ->
      geocodePostalCode parseFloat pc net log
      = (Normal None,
         log ++ [structuredRequest pc; freeTextRequest pc;
                 alternateRequest pc]))
  /\ (structured parseFloat net pc = Empty ->
      freeText parseFloat net pc = Empty ->
      alternate parseFloat net pc = Empty ->
      geocodePostalCode parseFloat pc net log
      = (Normal None,
         log ++ [structuredRequest pc; freeTextRequest pc;
                 alternateRequest pc]))
  /\ (exists result : option Coordinates,
        fst (geocodePostalCode parseFloat pc net log) = Normal result).
Proof.
  rewrite geocodePostalCode_chain. cbn [fst].
  unfold chain_aborting, requestsMade.
  split; [| split; [| split; [| split]]].
  - intros ->. reflexivity.
  - intros -> ->. reflexivity.
  - intros -> -> ->. reflexivity.
  - intros -> -> ->. reflexivity.
  - eexists. reflexivity.
Qed.

(** C5. The providers are tried in a fixed order, a step only when every
    earlier one produced no result: the free-text search is requested only
    after an empty structured search, the alternate provider only after
    both searches were empty, and then exactly once; the coordinates
    returned are those of the first step that produced a result, read from
    its first candidate whatever follows it. *)
Theorem geocodePostalCode_chain_order
        (pc : jsstring) (net : network) (log : list request) :
  snd (geocodePostalCode parseFloat pc net log) = log ++ requestsMade parseFloat net pc
  /\ (requestsMade parseFloat net pc = [structuredRequest pc]
      \/ requestsMade parseFloat net pc
         = [structuredRequest pc; freeTextRequest pc]
      \/ requestsMade parseFloat net pc
         = [structuredRequest pc; freeTextRequest pc; alternateRequest pc])
  /\ (In (freeTextRequest pc) (requestsMade parseFloat net pc) -> structured parseFloat net pc = Empty)
  /\ (In (alternateRequest pc) (requestsMade parseFloat net pc) ->
      structured parseFloat net pc = Empty
      /\ freeText parseFloat net pc = Empty)
  /\ (length (filter isAlternate (requestsMade parseFloat net pc)) <= 1)%nat
  /\ (structured parseFloat net pc = Empty ->
      freeText parseFloat net pc = Empty ->
      length (filter isAlternate (requestsMade parseFloat net pc)) = 1%nat)
  /\ (forall c, structured parseFloat net pc = Found c ->
                fst (geocodePostalCode parseFloat pc net log) = Normal (Some c))
  /\ (forall c, structured parseFloat net pc = Empty ->
                freeText parseFloat net pc = Found c ->
                fst (geocodePostalCode parseFloat pc net log) = Normal (Some c))
  /\ (forall c, structured parseFloat net pc = Empty ->
                freeText parseFloat net pc = Empty ->
                alternate parseFloat net pc = Found c ->
                fst (geocodePostalCode parseFloat pc net log) = Normal (Some c))
  /\ (forall okay first others,
         search net (structuredRequest pc)
         = Resolves {| ok := okay; payload := Json (first :: others) |} ->
         fst (geocodePostalCode parseFloat pc net log)
         = Normal (Some {| lat := parseFloat (place_lat first);
                           lng := parseFloat (place_lon first) |})).
Proof.
  rewrite geocodePostalCode_chain. cbn [fst snd].
  split; [reflexivity |].
  assert (Hmade :
    match structured parseFloat net pc with
    | Empty =>
        match freeText parseFloat net pc with
        | Empty => requestsMade parseFloat net pc
                   = [structuredRequest pc; freeTextRequest pc;
                      alternateRequest pc]
        | _ => requestsMade parseFloat net pc
               = [structuredRequest pc; freeTextRequest pc]
        end
    | _ => requestsMade parseFloat net pc = [structuredRequest pc]
    end).
  { unfold requestsMade.
    destruct (structured parseFloat net pc); try reflexivity.
    destruct (freeText parseFloat net pc); reflexivity. }
  unfold chain_aborting.
  destruct (structured parseFloat net pc) as [| | c1] eqn:E1;
    [ | destruct (freeText parseFloat net pc) as [| | c2] eqn:E2 | ];
    rewrite Hmade; unfold structuredRequest, freeTextRequest, alternateRequest;
    cbn [filter isAlternate length In];
    (repeat split;
     try solve [ tauto | lia | discriminate | congruence
               | intros; repeat match goal with
                                | H : _ \/ _ |- _ => destruct H
                                | H : False |- _ => destruct H
                                end; discriminate ]).
  all: try (intros okay first others Hs; unfold structured in E1;
            fold (formatted pc) in E1;
            unfold structuredRequest in E1;
            rewrite Hs in E1; cbn in E1; congruence).
  intros c _ _ Ha. now rewrite Ha.
Qed.

End ChainTheorems.

Lemma geocodePostalCode_stops_at_exception_witness :
  structured parseDecimal structuredDown (js "M5V 3L9") = Raises
  /\ geocodePostalCode parseDecimal (js "M5V 3L9") structuredDown []
     = (Normal None, [] ++ [structuredRequest (js "M5V 3L9")]).
Proof.
  assert (H : structured parseDecimal structuredDown (js "M5V 3L9") = Raises)
    by (vm_compute; reflexivity).
  split; [exact H |].
  exact (proj1 (geocodePostalCode_stops_at_exception parseDecimal
                  (js "M5V 3L9") structuredDown []) H).
Defined.

Lemma geocodePostalCode_chain_order_witness :
  (structured parseDecimal alternateOnly (js "M5V 3L9") = Empty
   /\ freeText parseDecimal alternateOnly (js "M5V 3L9") = Empty
   /\ alternate parseDecimal alternateOnly (js "M5V 3L9") = Found downtown)
  /\ length (filter isAlternate
               (requestsMade parseDecimal alternateOnly (js "M5V 3L9")))
     = 1%nat
  /\ fst (geocodePostalCode parseDecimal (js "M5V 3L9") alternateOnly [])
     = Normal (Some downtown).
Proof.
  assert (H1 : structured parseDecimal alternateOnly (js "M5V 3L9") = Empty)
    by (vm_compute; reflexivity).
  assert (H2 : freeText parseDecimal alternateOnly (js "M5V 3L9") = Empty)
    by (vm_compute; reflexivity).
  assert (H3 : alternate parseDecimal alternateOnly (js "M5V 3L9")
               = Found downtown)
    by (vm_compute; reflexivity).
  destruct (geocodePostalCode_chain_order parseDecimal (js "M5V 3L9")
              alternateOnly [])
    as (_ & _ & _ & _ & _ & Honce & _ & _ & Hfound & _).
  split; [repeat split; assumption |].
  split; [exact (Honce H1 H2) | exact (Hfound downtown H1 H2 H3)].
Defined.

(** ** Area names *)

Lemma present_text (v : option jsstring) :
  present v = true -> text v <> [].
Proof. destruct v as [[|c r] |]; cbn; intros H; congruence. Qed.

Lemma differs_present (x : jsstring) (v : option jsstring) :
  present v = true -> differs x v = negb (JsString.eqb x (text v)).
Proof. destruct v as [s |]; cbn [present text differs]; [reflexivity | discriminate]. Qed.

Lemma differs_absent (x : jsstring) (v : option jsstring) :
  present v = false -> x <> [] -> differs x v = true.
Proof.
  destruct v as [[|c r] |]; cbn [present truthy differs]; try discriminate;
    try reflexivity.
  intros _ Hx. destruct x; [congruence | reflexivity].
Qed.

Lemma orElse_present (a b : option jsstring) :
  present (orElse a b) = present a || present b.
Proof. unfold orElse. destruct (present a) eqn:E; [now rewrite E | reflexivity]. Qed.

(** The chain of [||] picks the first member that is present. *)
Lemma firstPresent_cons (v : option jsstring) (rest : list (option jsstring))
      (chained : option jsstring) :
  (if present chained then Some (text chained) else None) = firstPresent rest ->
  (if present (orElse v chained) then Some (text (orElse v chained)) else None)
  = firstPresent (v :: rest).
Proof.
  intros H. cbn [firstPresent]. unfold orElse.
  destruct (present v) eqn:E; [now rewrite E | exact H].
Qed.

Lemma firstPresent_last (v : option jsstring) :
  (if present v then Some (text v) else None) = firstPresent [v].
Proof. reflexivity. Qed.

Lemma join_nonempty (sep p : jsstring) (rest : list jsstring) :
  p <> [] -> truthy (join sep (p :: rest)) = true.
Proof.
  intros Hp. destruct p as [|c p]; [congruence |].
  destruct rest; reflexivity.
Qed.

Lemma areaParts_spec (lat lng : Q) (a : addressFields) :
  areaParts lat lng a = partsWithQuadrant lat lng a.
Proof.
  unfold areaParts, partsWithQuadrant, cityAndNeighbourhood,
    cityName, neighbourhoodName.
  rewrite <- (@firstPresent_cons (addr_city a) _ _
                (@firstPresent_cons (addr_town a) _ _
                   (@firstPresent_cons (addr_village a) _ _
                      (firstPresent_last (addr_municipality a))))).
  rewrite <- (@firstPresent_cons (addr_suburb a) _ _
                (@firstPresent_cons (addr_neighbourhood a) _ _
                   (firstPresent_last (addr_quarter a)))).
  set (city := orElse (addr_city a) _).
  set (neighborhood := orElse (addr_suburb a) _).
  destruct (present city) eqn:Ec, (present neighborhood) eqn:En;
    cbn [app andb length Nat.eqb].
  - rewrite (differs_present _ _ Ec).
    destruct (JsString.eqb (text neighborhood) (text city));
      cbn [negb app length Nat.eqb andb]; reflexivity.
  - reflexivity.
  - rewrite (differs_absent _ Ec (present_text _ En)).
    cbn [app length Nat.eqb andb]. reflexivity.
  - reflexivity.
Qed.

Lemma truthy_label (lat lng : Q) (a : addressFields) :
  (if truthy (join (js " - ") (areaParts lat lng a))
   then join (js " - ") (areaParts lat lng a) else UnknownArea)
  = labelOf (partsWithQuadrant lat lng a).
Proof.
  rewrite areaParts_spec.
  assert (Hne : forall p rest, partsWithQuadrant lat lng a = p :: rest -> p <> []).
  { unfold partsWithQuadrant, cityAndNeighbourhood, cityName, neighbourhoodName.
    intros p rest.
    assert (Hfp : forall l s, firstPresent l = Some s -> s <> []).
    { induction l as [|v l IH]; cbn [firstPresent]; intros s0; [discriminate |].
      destruct (present v) eqn:E; [| apply IH].
      intros H. inversion H. now apply present_text. }
    destruct (firstPresent [addr_city a; _; _; _]) as [c |] eqn:Ec;
      destruct (firstPresent [addr_suburb a; _; _]) as [n |] eqn:En;
      try destruct (JsString.eqb n c);
      cbn [length Nat.eqb andb app];
      try destruct (isBrampton c); cbn [app];
      intros H; inversion H; subst; eauto. }
  destruct (partsWithQuadrant lat lng a) as [|p rest] eqn:E; [reflexivity |].
  cbn [labelOf]. now rewrite (join_nonempty (js " - ") rest (Hne p rest eq_refl)).
Qed.

(** A run of the reverse geocoder makes its one request and completes
    normally with the label of the answer. *)
Lemma reverseGeocode_run (lat lng : Q) net log :
  reverseGeocode lat lng net log
  = (Normal (areaLabel lat lng (reverse net (NominatimReverse lat lng))),
     log ++ [NominatimReverse lat lng]).
Proof.
  unfold reverseGeocode, try_catch, bind, fetch, areaLabel.
  destruct (reverse net (NominatimReverse lat lng)) as [| [[|] pay]];
    cbn [ok negb]; try reflexivity.
  unfold json; cbn [payload].
  destruct pay as [| | [[a |]]]; try reflexivity.
  unfold ret. now rewrite truthy_label.
Qed.

Example reverseGeocode_no_address :
  fst (run (reverseGeocode (4365 # 100) (- (7938 # 100))) (answering noAddress))
  = Normal (js "Unknown Area").
Proof. vm_compute. reflexivity. Qed.

Example reverseGeocode_city_and_suburb :
  fst (run (reverseGeocode (4365 # 100) (- (7938 # 100)))
         (answering {| addr_city := Some (js "Toronto"); addr_town := None;
                       addr_village := None; addr_municipality := None;
                       addr_suburb := Some (js "Old Toronto");
                       addr_neighbourhood := Some (js "Entertainment District");
                       addr_quarter := None |}))
  = Normal (js "Toronto - Old Toronto").
Proof. vm_compute. reflexivity. Qed.

(** C8, as stated: refuted. For Brampton without a neighbourhood the
    label is not the city alone: a quadrant follows it. *)
Lemma reverseGeocode_adds_quadrant :
  run (reverseGeocode (438 # 10) (- (798 # 10))) (answering bramptonAddress)
  = (Normal (js "Brampton - Northwest"),
     [NominatimReverse (438 # 10) (- (798 # 10))])
  /\ areaLabel_as_specified
       (reverse (answering bramptonAddress)
          (NominatimReverse (438 # 10) (- (798 # 10))))
     = js "Brampton"
  /\ fst (run (reverseGeocode (438 # 10) (- (798 # 10)))
            (answering bramptonAddress))
     <> Normal (areaLabel_as_specified
                  (reverse (answering bramptonAddress)
                     (NominatimReverse (438 # 10) (- (798 # 10))))).
Proof.
  repeat split; try (vm_compute; reflexivity).
  vm_compute. discriminate.
Qed.

(** C8, amended. For every coordinate [reverseGeocode] completes normally
    with a text. A network error, a status that is not a success, a body
    that is not JSON or an address without city and neighbourhood give
    "Unknown Area". Otherwise the label is the collected parts joined with
    " - ": the city, the neighbourhood unless it is the city, and, when
    the city stands alone and is Brampton in any case of letters, a
    quadrant of the coordinate; without that last case it is the city and
    neighbourhood alone. *)
Theorem reverseGeocode_label
        (lat lng : Q) (net : network) (log : list request) :
  (exists label,
      reverseGeocode lat lng net log
      = (Normal label, log ++ [NominatimReverse lat lng]))
  /\ (reverse net (NominatimReverse lat lng) = NetworkError ->
      fst (reverseGeocode lat lng net log) = Normal UnknownArea)
  /\ (forall p,
         reverse net (NominatimReverse lat lng)
         = Resolves {| ok := false; payload := p |} ->
         fst (reverseGeocode lat lng net log) = Normal UnknownArea)
  /\ (forall okay,
         reverse net (NominatimReverse lat lng)
         = Resolves {| ok := okay; payload := NotJson |} ->
         fst (reverseGeocode lat lng net log) = Normal UnknownArea)
  /\ (forall okay,
         reverse net (NominatimReverse lat lng)
         = Resolves {| ok := okay; payload := Json {| addr := None |} |} ->
         fst (reverseGeocode lat lng net log) = Normal UnknownArea)
  /\ (forall a,
         reverse net (NominatimReverse lat lng)
         = Resolves {| ok := true; payload := Json {| addr := Some a |} |} ->
         cityName a = None -> neighbourhoodName a = None ->
         fst (reverseGeocode lat lng net log) = Normal UnknownArea)
  /\ (forall a,
         reverse net (NominatimReverse lat lng)
         = Resolves {| ok := true; payload := Json {| addr := Some a |} |} ->
         fst (reverseGeocode lat lng net log)
         = Normal (labelOf (partsWithQuadrant lat lng a)))
  /\ (forall a,
         reverse net (NominatimReverse lat lng)
         = Resolves {| ok := true; payload := Json {| addr := Some a |} |} ->
         (forall c, cityName a = Some c ->
                    isBrampton c = false
                    \/ length (cityAndNeighbourhood a) = 2%nat) ->
         fst (reverseGeocode lat lng net log)
         = Normal (labelOf (cityAndNeighbourhood a))).
Proof.
  rewrite reverseGeocode_run. cbn [fst].
  split; [eexists; reflexivity |].
  split; [intros ->; reflexivity |].
  split; [intros p ->; reflexivity |].
  split; [intros [|] ->; reflexivity |].
  split; [intros [|] ->; reflexivity |].
  split; [| split].
  - intros a -> Hc Hn. cbn [areaLabel].
    unfold partsWithQuadrant, cityAndNeighbourhood. now rewrite Hc, Hn.
  - intros a ->. reflexivity.
  - intros a -> Hcity. cbn [areaLabel]. unfold partsWithQuadrant.
    destruct (cityName a) as [c |] eqn:Ec; [| reflexivity].
    destruct (Hcity c eq_refl) as [Hb | Hlen].
    + now rewrite Hb, andb_false_r.
    + now rewrite Hlen.
Qed.

Lemma reverseGeocode_label_witness :
  reverse offline (NominatimReverse (4365 # 100) (- (7938 # 100)))
  = NetworkError
  /\ fst (reverseGeocode (4365 # 100) (- (7938 # 100)) offline [])
     = Normal UnknownArea.
Proof.
  assert (H : reverse offline (NominatimReverse (4365 # 100) (- (7938 # 100)))
              = NetworkError) by reflexivity.
  split; [exact H |].
  exact (proj1 (proj2 (reverseGeocode_label (4365 # 100) (- (7938 # 100))
                         offline [])) H).
Defined.

(* ================================================================== *)
(** * Further properties *)

(** ** The postal-code field *)

Lemma isUpperAlnum_support c :
  isUpperAlnum c = true -> In c (units 0x41 0x5A ++ units 0x30 0x39).
Proof.
  unfold isUpperAlnum, notUpperAlnum, isAsciiUpper, isAsciiDigit.
  rewrite negb_involutive. intros H. apply orb_prop in H. apply in_or_app.
  destruct H as [H | H]; apply andb_prop in H; destruct H as [H1 H2];
    apply N.leb_le in H1, H2; [left | right]; now apply in_units.
Qed.

Lemma upperAlnum_cleaned c : isUpperAlnum c = true -> cleanedUnit c = [c].
Proof.
  intros H. apply eqb_eq. revert c H.
  check_on (units 0x41 0x5A ++ units 0x30 0x39) isUpperAlnum_support.
Qed.

Lemma upperAlnum_not_space c :
  isUpperAlnum c = true -> isWhiteSpace c = false.
Proof.
  intros H. apply negb_true_iff. revert c H.
  check_on (units 0x41 0x5A ++ units 0x30 0x39) isUpperAlnum_support.
Qed.

Lemma kept_upperAlnum (s : jsstring) :
  Forall (fun c => isUpperAlnum c = true) (kept s).
Proof. unfold kept. apply Forall_forall. intros c Hc. now apply filter_In in Hc. Qed.

Lemma cleaned_fixed (k : jsstring) :
  Forall (fun c => isUpperAlnum c = true) k -> flat_map cleanedUnit k = k.
Proof.
  induction 1 as [|c k Hc _ IH]; cbn [flat_map]; [reflexivity |].
  now rewrite (upperAlnum_cleaned c Hc), IH.
Qed.

Lemma kept_insertSpace (k : jsstring) :
  Forall (fun c => isUpperAlnum c = true) k -> kept (insertSpace k) = k.
Proof.
  intros Hk. unfold kept. rewrite cleaned_filter. unfold insertSpace.
  destruct (4 <=? length k)%nat; [| now apply cleaned_fixed].
  rewrite !flat_map_app.
  change (flat_map cleanedUnit (js " ")) with (@nil code_unit).
  cbn [app]. rewrite <- flat_map_app, firstn_skipn.
  now apply cleaned_fixed.
Qed.

Lemma Forall_firstn {A} (P : A -> Prop) (n : nat) (l : list A) :
  Forall P l -> Forall P (firstn n l).
Proof.
  intros H. apply Forall_forall. intros x Hx.
  rewrite Forall_forall in H. apply H.
  rewrite <- (firstn_skipn n l). apply in_or_app. now left.
Qed.

(** X1. Formatting is idempotent: formatting a formatted text gives it
    back. *)
Theorem formatPostalCode_idempotent (s : jsstring) :
  formatPostalCode (formatPostalCode s) = formatPostalCode s.
Proof.
  rewrite (format_first_six s). fold (kept s).
  set (k := firstn 6 (kept s)).
  assert (Hk : Forall (fun c => isUpperAlnum c = true) k)
    by (apply Forall_firstn, kept_upperAlnum).
  rewrite format_first_six. fold (kept (insertSpace k)).
  rewrite (kept_insertSpace Hk).
  replace (firstn 6 k) with k; [reflexivity |].
  unfold k. rewrite firstn_firstn. reflexivity.
Qed.

(** X2. A formatted text fits the field: it has at most seven units, each
    a capital letter, a digit or a space, and when more than three letters
    and digits are kept the fourth unit is the only space. *)
Theorem formatPostalCode_fits_field (s : jsstring) :
  (length (formatPostalCode s) <= 7)%nat
  /\ Forall (fun c => allowedInField c = true) (formatPostalCode s)
  /\ ((3 < length (kept s))%nat ->
      nth_error (formatPostalCode s) 3 = Some 0x20%N
      /\ length (filter isWhiteSpace (formatPostalCode s)) = 1%nat)
  /\ ((length (kept s) <= 3)%nat -> formatPostalCode s = kept s).
Proof.
  rewrite (format_first_six s). fold (kept s).
  assert (Hk : Forall (fun c => isUpperAlnum c = true) (firstn 6 (kept s)))
    by (apply Forall_firstn, kept_upperAlnum).
  assert (Hlen : length (firstn 6 (kept s)) = Nat.min 6 (length (kept s)))
    by apply length_firstn.
  set (k := firstn 6 (kept s)) in *.
  assert (Hnospace : filter isWhiteSpace k = []).
  { clear Hlen. induction Hk as [|c k' Hc _ IH]; [reflexivity |].
    cbn [filter]. now rewrite (upperAlnum_not_space c Hc). }
  unfold insertSpace.
  destruct (Nat.leb_spec 4 (length k)) as [H4 | H4].
  - assert (H3 : length (firstn 3 k) = 3%nat)
      by (rewrite length_firstn; lia).
    split; [| split; [| split]].
    + rewrite !length_app, H3, length_skipn.
      change (length (js " ")) with 1%nat. lia.
    + apply Forall_app. split.
      * eapply Forall_impl; [| apply Forall_firstn, Hk].
        intros c Hc. unfold allowedInField. now rewrite Hc.
      * apply Forall_app. split; [repeat constructor |].
        apply Forall_forall. intros c Hc. unfold allowedInField.
        rewrite Forall_forall in Hk. rewrite Hk; [reflexivity |].
        rewrite <- (firstn_skipn 3 k). apply in_or_app. now right.
    + intros _. split.
      * rewrite nth_error_app2 by lia. now rewrite H3.
      * rewrite !filter_app.
        rewrite <- (firstn_skipn 3 k), filter_app in Hnospace.
        apply app_eq_nil in Hnospace. destruct Hnospace as [-> ->].
        reflexivity.
    + intros Hle. lia.
  - split; [| split; [| split]].
    + lia.
    + eapply Forall_impl; [| exact Hk].
      intros c Hc. unfold allowedInField. now rewrite Hc.
    + intros Hgt. lia.
    + intros Hle. unfold k. apply firstn_all2. lia.
Qed.

(** Validation of the formatted text, computed on the letters and digits
    kept. *)
Lemma validate_insertSpace (k : jsstring) :
  Forall (fun c => isUpperAlnum c = true) k -> (length k <= 6)%nat ->
  validateOntarioPostalCode (insertSpace k)
  = shapeb isLeadingLetter isDigit isLetter isWhiteSpace k.
Proof.
  intros Hk Hlen. unfold validateOntarioPostalCode. rewrite test_ontario.
  assert (Hws : Forall (fun c => isWhiteSpace c = false) k).
  { eapply Forall_impl; [| exact Hk]. intros c. apply upperAlnum_not_space. }
  clear Hk.
  destruct k as [|c1 [|c2 [|c3 [|c4 [|c5 [|c6 [|c7 r]]]]]]];
    try (cbn [length] in Hlen; lia);
    repeat match goal with
           | H : Forall _ (_ :: _) |- _ => inversion H; clear H; subst
           end;
    unfold insertSpace, trim, trimEnd;
    cbn [length Nat.leb firstn skipn app js map list_ascii_of_string
         trimStart rev];
    change (N_of_ascii " ") with 0x20%N;
    repeat (progress
              (cbn [trimStart rev app];
               repeat match goal with
                      | H : isWhiteSpace ?c = false
                        |- context [isWhiteSpace ?c] => rewrite H
                      end));
    cbn [shapeb]; rewrite ?andb_false_r; try reflexivity.
  change (isWhiteSpace 0x20%N) with true. now rewrite andb_true_r.
Qed.

(** X3. Whether the text of the field is accepted depends only on the
    first six letters and digits kept of what was typed: the formatted
    text is valid exactly when those six fit the pattern. *)
Theorem validate_formatted_iff (s : jsstring) :
  validateOntarioPostalCode (formatPostalCode s) = true
  <-> PostalPattern (firstn 6 (kept s)).
Proof.
  rewrite (format_first_six s). fold (kept s).
  rewrite validate_insertSpace.
  - apply shapeb_pattern.
  - apply Forall_firstn, kept_upperAlnum.
  - rewrite length_firstn. lia.
Qed.

Lemma formatPostalCode_fits_field_witness :
  (3 < length (kept (js "k1a0b1")))%nat
  /\ nth_error (formatPostalCode (js "k1a0b1")) 3 = Some 0x20%N.
Proof.
  assert (H : (3 < length (kept (js "k1a0b1")))%nat)
    by (vm_compute; repeat constructor).
  split; [exact H |].
  exact (proj1 (proj1 (proj2 (proj2 (formatPostalCode_fits_field
                                       (js "k1a0b1")))) H)).
Defined.

(** ** Dialling *)

Lemma phoneUrl_number (phone : jsstring) :
  phoneUrl phone = js "tel:" ++ filter dialable phone.
Proof. unfold phoneUrl. now rewrite replaceEach_strip. Qed.

(** X4. Calling a hospital hands the dialer "tel:" followed by the digits
    and plus signs of the phone text, in order and nothing else; all
    digits of the text are dialled; the call makes no request, never
    throws and leaves the hospitals alone; an alert is raised exactly when
    the dialer cannot be opened. *)
Theorem callHospital_dials
        (dev : device) (phone : jsstring) (s : Screen)
        (net : network) (log : list request) :
  exists s',
    callHospital dev phone s net log = (Normal tt, s', log)
    /\ opened s' = opened s ++ [js "tel:" ++ filter dialable phone]
    /\ Forall (fun c => isAsciiDigit c = true \/ c = 0x2B%N)
              (filter dialable phone)
    /\ filter isAsciiDigit (filter dialable phone) = filter isAsciiDigit phone
    /\ hospitals (appState s') = hospitals (appState s)
    /\ alerts (appState s')
       = if openURL dev (phoneUrl phone) then alerts (appState s)
         else alerts (appState s)
              ++ [(js "Error", js "Unable to make phone call")].
Proof.
  unfold callHospital, sbind, update.
  assert (Hd : Forall (fun c => isAsciiDigit c = true \/ c = 0x2B%N)
                      (filter dialable phone)).
  { apply Forall_forall. intros c Hc. apply filter_In in Hc.
    destruct Hc as [_ Hc]. unfold dialable, notDialable in Hc.
    rewrite negb_involutive in Hc. apply orb_prop in Hc.
    destruct Hc as [Hc | Hc]; [now left | right; now apply N.eqb_eq]. }
  assert (Hdigits : filter isAsciiDigit (filter dialable phone)
                    = filter isAsciiDigit phone).
  { clear Hd. induction phone as [|c r IH]; [reflexivity |].
    cbn [filter]. destruct (dialable c) eqn:Ed; cbn [filter].
    - now rewrite IH.
    - unfold dialable, notDialable in Ed. rewrite negb_involutive in Ed.
      apply orb_false_elim in Ed. destruct Ed as [Ed _].
      now rewrite Ed. }
  destruct (openURL dev (phoneUrl phone)) eqn:E.
  - eexists. split; [reflexivity |].
    cbn [opened addOpened appState hospitals alerts].
    rewrite phoneUrl_number. repeat split; assumption || reflexivity.
  - eexists. split; [reflexivity |].
    unfold Alert_alert, update.
    cbn [opened addOpened setApp appState alert hospitals alerts].
    rewrite phoneUrl_number. repeat split; assumption || reflexivity.
Qed.

(** ** Wait times on display *)

Lemma ltb_lt (a b : Q) : ltb a b = true <-> a < b.
Proof.
  unfold ltb. rewrite negb_true_iff. split.
  - intros H. destruct (Qlt_le_dec a b) as [Hlt | Hle]; [assumption |].
    apply Qle_bool_iff in Hle. congruence.
  - intros H. destruct (Qle_bool b a) eqn:E; [| reflexivity].
    apply Qle_bool_iff in E. lra.
Qed.

Lemma ltb_ge (a b : Q) : ltb a b = false <-> b <= a.
Proof.
  unfold ltb. rewrite negb_false_iff. apply Qle_bool_iff.
Qed.

(** X5. The colour of a wait time tells its range: green exactly below 60
    minutes, orange exactly from 60 up to but not including 120, red
    exactly from 120 on. *)
Theorem getWaitTimeColor_ranges (minutes : Q) :
  (getWaitTimeColor minutes = js "#10B981" <-> minutes < 60)
  /\ (getWaitTimeColor minutes = js "#F59E0B"
      <-> 60 <= minutes /\ minutes < 120)
  /\ (getWaitTimeColor minutes = js "#EF4444" <-> 120 <= minutes).
Proof.
  unfold getWaitTimeColor.
  destruct (ltb minutes 60) eqn:E1; [| destruct (ltb minutes 120) eqn:E2].
  - apply ltb_lt in E1.
    split; [| split]; (split; intros H);
      try assumption; try reflexivity;
      try (vm_compute in H; discriminate); lra.
  - apply ltb_ge in E1. apply ltb_lt in E2.
    split; [| split]; (split; intros H);
      try (split; assumption); try reflexivity;
      try (vm_compute in H; discriminate); lra.
  - apply ltb_ge in E1. apply ltb_ge in E2.
    split; [| split]; (split; intros H);
      try assumption; try reflexivity;
      try (vm_compute in H; discriminate); lra.
Qed.

(** X6. A wait of a whole number of minutes of magnitude below 2^53 is
    shown as hours and minutes that add up to it: from 60 minutes on as
    "<h>h <m>m" with [0 <= m < 60] and [60 h + m] the wait, below 60 as
    "<m>m"; a negative wait never shows hours and keeps only the
    remainder. *)
Theorem formatWaitTime_adds_up (minutes : Z) :
  ((60 <= minutes < safeBound)%Z ->
   exists h m,
     formatWaitTime minutes
     = numberToString h ++ js "h " ++ numberToString m ++ js "m"
     /\ (1 <= h)%Z /\ (0 <= m < 60)%Z /\ (60 * h + m = minutes)%Z)
  /\ ((0 <= minutes < 60)%Z ->
      formatWaitTime minutes = numberToString minutes ++ js "m")
  /\ ((- safeBound < minutes < 0)%Z ->
      formatWaitTime minutes = numberToString (Z.rem minutes 60) ++ js "m"
      /\ (-60 < Z.rem minutes 60 <= 0)%Z).
Proof.
  unfold formatWaitTime. split; [| split].
  - intros [H _]. exists (minutes / 60)%Z, (Z.rem minutes 60).
    assert (Hh : (1 <= minutes / 60)%Z)
      by (apply Z.div_le_lower_bound; lia).
    destruct (Z.ltb_spec 0 (minutes / 60)) as [_ | Hc]; [| lia].
    rewrite Z.rem_mod_nonneg by lia.
    pose proof (Z.mod_pos_bound minutes 60 ltac:(lia)).
    pose proof (Z.div_mod minutes 60 ltac:(lia)).
    repeat split; try lia.
  - intros H. rewrite Z.div_small by lia. cbn [Z.ltb Z.compare].
    rewrite Z.rem_small by lia. reflexivity.
  - intros [_ H].
    assert (Hh : (minutes / 60 < 0)%Z) by (apply Z.div_lt_upper_bound; lia).
    destruct (Z.ltb_spec 0 (minutes / 60)) as [Hc | _]; [lia |].
    split; [reflexivity |].
    pose proof (Z.rem_bound_pos_neg minutes 60 ltac:(lia) ltac:(lia)). lia.
Qed.

Lemma formatWaitTime_adds_up_witness :
  (60 <= 135 < safeBound)%Z
  /\ exists h m,
       formatWaitTime 135
       = numberToString h ++ js "h " ++ numberToString m ++ js "m"
       /\ (1 <= h)%Z /\ (0 <= m < 60)%Z /\ (60 * h + m = 135)%Z.
Proof.
  assert (H : (60 <= 135 < safeBound)%Z) by (split; [lia | reflexivity]).
  split; [exact H |].
  exact (proj1 (formatWaitTime_adds_up 135) H).
Defined.

Example formatWaitTime_135 : formatWaitTime 135 = js "2h 15m".
Proof. vm_compute. reflexivity. Qed.

Example formatWaitTime_negative : formatWaitTime (-90) = js "-30m".
Proof. vm_compute. reflexivity. Qed.

(** ** Ranking in every mode *)

Lemma sortHospitals_perm (l : list Hospital) (mode : SortMode) :
  Permutation (sortHospitals l mode) l.
Proof. rewrite sortHospitals_byKey. apply Array_sort_perm. Qed.

Lemma sortHospitals_nondecreasing (l : list Hospital) (mode : SortMode) :
  NonDecreasing (sortKey mode) (sortHospitals l mode).
Proof. rewrite sortHospitals_byKey. apply Array_sort_sorted. Qed.

(** X7. In every mode the ranking is a reordering of the whole input,
    non-decreasing in the key of the mode: the travel time or the total
    (absent counting as 0), or the wait time. *)
Theorem sortHospitals_sorted (l : list Hospital) (mode : SortMode) :
  Permutation (sortHospitals l mode) l
  /\ length (sortHospitals l mode) = length l
  /\ NonDecreasing (sortKey mode) (sortHospitals l mode)
  /\ NonDecreasing currentWaitTime (sortHospitals l waitTime)
  /\ NonDecreasing (fun h => orZero (travelTimeMinutes h))
       (sortHospitals l travelTime).
Proof.
  split; [apply sortHospitals_perm |].
  split; [apply Permutation_length, sortHospitals_perm |].
  split; [apply sortHospitals_nondecreasing |].
  split.
  - apply (sortHospitals_nondecreasing l waitTime).
  - apply (sortHospitals_nondecreasing l travelTime).
Qed.

Lemma NonDecreasing_head {A} (key : A -> Q) (x : A) (l : list A) :
  NonDecreasing key (x :: l) -> Forall (fun y => key x <= key y) (x :: l).
Proof.
  intros Hs. constructor; [apply Qle_refl |].
  apply Sorted_StronglySorted in Hs.
  - now inversion Hs.
  - intros a b c Hab Hbc. eapply Qle_trans; eassumption.
Qed.

(** X8. The first hospital of the ranking has the least key of the whole
    input. *)
Theorem sortHospitals_first_is_least
        (l : list Hospital) (mode : SortMode)
        (first : Hospital) (others : list Hospital) :
  sortHospitals l mode = first :: others ->
  forall h, In h l -> sortKey mode first <= sortKey mode h.
Proof.
  intros E h Hin.
  pose proof (sortHospitals_perm l mode) as Hp.
  pose proof (sortHospitals_nondecreasing l mode) as Hs.
  rewrite E in Hp, Hs.
  apply NonDecreasing_head in Hs. rewrite Forall_forall in Hs.
  apply Hs. eapply Permutation_in; [symmetry; exact Hp | exact Hin].
Qed.

Lemma sortHospitals_first_is_least_witness :
  sortHospitals [hospital "b" 30 (Some 12) (Some 42);
                 hospital "a" 5 (Some 20) (Some 25)] combined
  = [hospital "a" 5 (Some 20) (Some 25); hospital "b" 30 (Some 12) (Some 42)]
  /\ sortKey combined (hospital "a" 5 (Some 20) (Some 25))
     <= sortKey combined (hospital "b" 30 (Some 12) (Some 42)).
Proof.
  assert (E : sortHospitals [hospital "b" 30 (Some 12) (Some 42);
                             hospital "a" 5 (Some 20) (Some 25)] combined
              = [hospital "a" 5 (Some 20) (Some 25);
                 hospital "b" 30 (Some 12) (Some 42)])
    by (vm_compute; reflexivity).
  split; [exact E |].
  apply (@sortHospitals_first_is_least _ _ _ _ E). left. reflexivity.
Defined.

(** Two non-decreasing lists of numbers in lowest terms with the same
    members are the same list. *)
Lemma sorted_reduced_unique (xs ys : list Q) :
  Forall (fun q => Qred q = q) xs -> Forall (fun q => Qred q = q) ys ->
  Sorted Qle xs -> Sorted Qle ys -> Permutation xs ys -> xs = ys.
Proof.
  revert ys. induction xs as [|x xs IH]; intros ys Rx Ry Sx Sy Hp.
  - apply Permutation_nil in Hp. now subst.
  - destruct ys as [|y ys].
    + apply Permutation_sym, Permutation_nil in Hp. discriminate.
    + assert (Hx : Forall (fun q => x <= q) (x :: xs))
        by (apply (@NonDecreasing_head Q (fun q => q)); exact Sx).
      assert (Hy : Forall (fun q => y <= q) (y :: ys))
        by (apply (@NonDecreasing_head Q (fun q => q)); exact Sy).
      rewrite Forall_forall in Hx, Hy.
      assert (Hxy : x <= y).
      { apply Hx. eapply Permutation_in; [symmetry; exact Hp | now left]. }
      assert (Hyx : y <= x).
      { apply Hy. eapply Permutation_in; [exact Hp | now left]. }
      assert (E : x = y).
      { inversion Rx as [|? ? Ex _]; inversion Ry as [|? ? Ey _]; subst.
        rewrite <- Ex, <- Ey. apply Qred_complete. lra. }
      subst y. f_equal.
      inversion Rx; inversion Ry; inversion Sx; inversion Sy; subst.
      apply IH; try assumption. eapply Permutation_cons_inv. exact Hp.
Qed.

Lemma NonDecreasing_map_Qred {A} (key : A -> Q) (l : list A) :
  NonDecreasing key l -> Sorted Qle (map (fun a => Qred (key a)) l).
Proof.
  unfold NonDecreasing. induction 1 as [|x l Hs IH Hhd]; cbn [map].
  - constructor.
  - constructor; [exact IH |].
    destruct Hhd as [|y l Hxy]; cbn [map]; constructor.
    rewrite !Qred_correct. exact Hxy.
Qed.

(** X9. The ranking does not depend on the order in which the hospitals
    arrive: two inputs with the same hospitals give, position by position,
    the same keys. *)
Theorem sortHospitals_order_independent
        (l1 l2 : list Hospital) (mode : SortMode) :
  Permutation l1 l2 ->
  Forall2 (fun a b => sortKey mode a == sortKey mode b)
          (sortHospitals l1 mode) (sortHospitals l2 mode).
Proof.
  intros Hp.
  pose proof (sortHospitals_perm l1 mode) as P1.
  pose proof (sortHospitals_nondecreasing l1 mode) as S1.
  pose proof (sortHospitals_perm l2 mode) as P2.
  pose proof (sortHospitals_nondecreasing l2 mode) as S2.
  assert (E : map (fun h => Qred (sortKey mode h)) (sortHospitals l1 mode)
              = map (fun h => Qred (sortKey mode h)) (sortHospitals l2 mode)).
  { apply sorted_reduced_unique.
    - apply Forall_forall. intros q Hq. apply in_map_iff in Hq.
      destruct Hq as [h [<- _]]. apply Qred_complete, Qred_correct.
    - apply Forall_forall. intros q Hq. apply in_map_iff in Hq.
      destruct Hq as [h [<- _]]. apply Qred_complete, Qred_correct.
    - now apply NonDecreasing_map_Qred.
    - now apply NonDecreasing_map_Qred.
    - apply Permutation_map. rewrite P1, P2. exact Hp. }
  revert E. generalize (sortHospitals l1 mode) (sortHospitals l2 mode).
  induction l as [|a l IH]; intros [|b l'] E; try discriminate; constructor.
  - cbn [map] in E. injection E as E _.
    rewrite <- (Qred_correct (sortKey mode a)), E. apply Qred_correct.
  - apply IH. cbn [map] in E. now injection E.
Qed.

Lemma sortHospitals_order_independent_witness :
  Permutation [hospital "b" 30 None None; hospital "a" 5 None None]
              [hospital "a" 5 None None; hospital "b" 30 None None]
  /\ Forall2 (fun a b => sortKey waitTime a == sortKey waitTime b)
       (sortHospitals [hospital "b" 30 None None; hospital "a" 5 None None]
          waitTime)
       (sortHospitals [hospital "a" 5 None None; hospital "b" 30 None None]
          waitTime).
Proof.
  assert (H : Permutation
                [hospital "b" 30 None None; hospital "a" 5 None None]
                [hospital "a" 5 None None; hospital "b" 30 None None])
    by apply perm_swap.
  split; [exact H |].
  exact (@sortHospitals_order_independent _ _ waitTime H).
Defined.

(** ** Travel time, whatever the routing service does *)

(** X11. The real-routing provider never throws and makes exactly one
    request. On a success whose body parses and is not [null] it returns
    what the body holds under [duration], [undefined] when it holds
    nothing there; in every other case (network error, status that is not
    a success, body that is not JSON or is [null]) it returns the estimate
    from the distance. *)
Theorem realRouting_always_answers
        (host : arithmetic) (net : network) (from to : Coordinates)
        (distanceKm : Q) (log : list request) :
  exists result,
    RealRoutingTimeProvider.calculateTravelTime host from to distanceKm net log
    = (Normal result, log ++ [routingRequest from to])
    /\ ((exists data,
            routing net (routingRequest from to)
            = Resolves {| ok := true; payload := Json data |}
            /\ isNull data = false
            /\ result = durationOf data)
        \/ (RoutingFails net from to
            /\ result = Value (JNumber (estimate host distanceKm)))).
Proof.
  assert (Hfail : RoutingFails net from to ->
                  exists result,
                    RealRoutingTimeProvider.calculateTravelTime
                      host from to distanceKm net log
                    = (Normal result, log ++ [routingRequest from to])
                    /\ ((exists data,
                            routing net (routingRequest from to)
                            = Resolves {| ok := true; payload := Json data |}
                            /\ isNull data = false
                            /\ result = durationOf data)
                        \/ (RoutingFails net from to
                            /\ result
                               = Value (JNumber (estimate host distanceKm))))).
  { intros Hf. exists (Value (JNumber (estimate host distanceKm))).
    split; [exact (@realRouting_failure host from to distanceKm net log Hf) |].
    right. split; [exact Hf | reflexivity]. }
  destruct (routing net (routingRequest from to)) as [| [[|] [| | data]]] eqn:E.
  - apply Hfail. now apply fails_network_error.
  - apply Hfail. now apply fails_not_json.
  - apply Hfail. now apply fails_null.
  - destruct (isNull data) eqn:En.
    + apply Hfail. destruct data; try discriminate En.
      now apply fails_null_value.
    + exists (durationOf data).
      split; [exact (@realRouting_success host from to distanceKm net log data E En) |].
      left. exists data. split; [reflexivity |]. split; [exact En | reflexivity].
  - apply Hfail. eapply fails_status; exact E.
  - apply Hfail. eapply fails_status; exact E.
  - apply Hfail. eapply fails_status; exact E.
Qed.

(** ** Fetching, whatever the backend and the provider do *)

Lemma fetchNearbyHospitals_run
      (provider : TravelTimeProvider) (mode : SortMode) (lat lng : Q)
      (st : AppState) net log :
  fetchNearbyHospitals provider mode lat lng st net log
  = match hospitalsWithTravelTime provider lat lng net log with
    | (Normal es, log') =>
        (Normal (setRefreshing false
                   (setLoading false
                      (setHospitals (sortHospitals es mode) st))), log')
    | (Thrown, log') =>
        (Normal (setRefreshing false
                   (setLoading false
                      (alert (js "Error")
                             (js "Unable to fetch nearby hospitals") st))),
         log')
    end.
Proof.
  unfold fetchNearbyHospitals, bind, try_catch.
  destruct (hospitalsWithTravelTime provider lat lng net log) as [[es |] log'];
    reflexivity.
Qed.

Lemma hospitalsWithTravelTime_fails
      (provider : TravelTimeProvider) (lat lng : Q) net log :
  BackendFails net lat lng ->
  hospitalsWithTravelTime provider lat lng net log
  = (Thrown, log ++ [HospitalsNearby lat lng 5]).
Proof.
  intros Hf. unfold hospitalsWithTravelTime, bind, fetch.
  destruct Hf as [H | p H | H | H]; rewrite H; reflexivity.
Qed.

(** X12. When the call of the backend fails (network error, status that
    is not a success, body that is not JSON or is null), the hospitals on
    display are kept as they were, one alert "Unable to fetch nearby
    hospitals" is raised, both spinners stop, and the only request made is
    the one to the backend; this holds for every provider. *)
Theorem fetchNearbyHospitals_failure_keeps_list
        (provider : TravelTimeProvider) (mode : SortMode) (lat lng : Q)
        (st : AppState) (net : network) (log : list request) :
  BackendFails net lat lng ->
  fetchNearbyHospitals provider mode lat lng st net log
  = (Normal {| hospitals := hospitals st; loading := false;
               refreshing := false;
               alerts := alerts st ++ [fetchError] |},
     log ++ [HospitalsNearby lat lng 5]).
Proof.
  intros Hf. rewrite fetchNearbyHospitals_run.
  rewrite (hospitalsWithTravelTime_fails provider log Hf).
  reflexivity.
Qed.

Lemma fetchNearbyHospitals_failure_keeps_list_witness :
  BackendFails backendDown 0 0
  /\ fetchNearbyHospitals exampleProvider combined 0 0 emptyState backendDown []
     = (Normal {| hospitals := hospitals emptyState; loading := false;
                  refreshing := false;
                  alerts := alerts emptyState ++ [fetchError] |},
        [] ++ [HospitalsNearby 0 0 5]).
Proof.
  assert (H : BackendFails backendDown 0 0)
    by (eapply backend_status; reflexivity).
  split; [exact H |].
  exact (@fetchNearbyHospitals_failure_keeps_list exampleProvider combined 0 0
           emptyState backendDown [] H).
Defined.

Lemma fetchNearbyHospitals_completes
      (provider : TravelTimeProvider) (mode : SortMode) (lat lng : Q)
      (st : AppState) (net : network) (log : list request) :
  exists st' log',
    fetchNearbyHospitals provider mode lat lng st net log = (Normal st', log')
    /\ loading st' = false /\ refreshing st' = false
    /\ ((Forall Enriched (hospitals st') /\ alerts st' = alerts st)
        \/ (hospitals st' = hospitals st
            /\ alerts st' = alerts st ++ [fetchError])).
Proof.
  rewrite fetchNearbyHospitals_run.
  destruct (hospitalsWithTravelTime provider lat lng net log)
    as [[es |] log'] eqn:E.
  - eexists. eexists. split; [reflexivity |].
    split; [reflexivity |]. split; [reflexivity |]. left.
    split; [| reflexivity].
    cbn [hospitals setRefreshing setLoading setHospitals].
    destruct (hospitalsWithTravelTime_attach _ _ _ _ _ E) as [data [_ Ha]].
    eapply Permutation_Forall; [| eapply attached_Enriched; exact Ha].
    rewrite sortHospitals_byKey. symmetry. apply Array_sort_perm.
  - eexists. eexists. split; [reflexivity |].
    split; [reflexivity |]. split; [reflexivity |]. right.
    split; reflexivity.
Qed.


Lemma all_estimated (host : arithmetic) (lat lng : Q) (data : list Hospital)
      net log :
  all (withTravelTime (Estimated host) lat lng) data net log
  = (Normal (map (fun h => attach h (estimate host (orZero (distance h))))
               data),
     log).
Proof.
  revert log. induction data as [|h data IH]; intros log; [reflexivity |].
  cbn [all map]. unfold bind at 1, withTravelTime, bind at 1.
  cbn [calculateTravelTime Estimated].
  rewrite estimated_result. unfold ret at 1, bind at 1.
  cbv beta iota. rewrite IH. reflexivity.
Qed.

(** X15. In the variant of the screen before, whose provider is the
    estimated one, a fetch that the backend answers asks it for ten
    candidates and makes no other request; every candidate gets the
    estimate from its distance, from 0 when it carries none; the list
    stored is a ranking of these records, as many as the backend sent, and
    every one of them is enriched. *)
Theorem earlier_fetchNearbyHospitals_estimated
        (host : arithmetic) (mode : SortMode) (lat lng : Q) (st : AppState)
        (net : network) (log : list request) (data : list Hospital) :
  nearby net (HospitalsNearby lat lng 10)
  = Resolves {| ok := true; payload := Json data |} ->
  EarlierVariant.fetchNearbyHospitals host mode lat lng st net log
  = (Normal {| hospitals :=
                 sortHospitals
                   (map (fun h => attach h (estimate host (orZero (distance h))))
                      data) mode;
               loading := false; refreshing := false;
               alerts := alerts st |},
     log ++ [HospitalsNearby lat lng 10])
  /\ length (sortHospitals
               (map (fun h => attach h (estimate host (orZero (distance h))))
                  data) mode)
     = length data
  /\ Forall Enriched
       (sortHospitals
          (map (fun h => attach h (estimate host (orZero (distance h))))
             data) mode).
Proof.
  intros Hn. split; [| split].
  - unfold EarlierVariant.fetchNearbyHospitals,
      EarlierVariant.hospitalsWithTravelTime,
      EarlierVariant.travelTimeProvider, try_catch, bind, fetch.
    rewrite Hn.
    cbn [ok negb]. unfold json, member, ret. cbn [payload].
    cbv beta iota.
    rewrite all_estimated. reflexivity.
  - rewrite (Permutation_length (sortHospitals_perm _ mode)).
    apply length_map.
  - eapply Permutation_Forall; [symmetry; apply sortHospitals_perm |].
    apply Forall_forall. intros e He. apply in_map_iff in He.
    destruct He as [h [<- _]]. apply attach_Enriched.
Qed.

Lemma earlier_fetchNearbyHospitals_estimated_witness :
  nearby backendOnly (HospitalsNearby 0 0 10)
  = Resolves {| ok := true; payload := Json twoCandidates |}
  /\ EarlierVariant.fetchNearbyHospitals exactArithmetic combined 0 0
       emptyState backendOnly []
     = (Normal {| hospitals :=
                    sortHospitals
                      (map (fun h => attach h (estimate exactArithmetic
                                                 (orZero (distance h))))
                         twoCandidates) combined;
                  loading := false; refreshing := false;
                  alerts := alerts emptyState |},
        [] ++ [HospitalsNearby 0 0 10]).
Proof.
  assert (H : nearby backendOnly (HospitalsNearby 0 0 10)
              = Resolves {| ok := true; payload := Json twoCandidates |})
    by reflexivity.
  split; [exact H |].
  exact (proj1 (@earlier_fetchNearbyHospitals_estimated exactArithmetic
                  combined 0 0 emptyState backendOnly [] twoCandidates H)).
Defined.

(** ** The resolver: statuses, queries and the variant before *)

Lemma searchOutcome_body (parseFloat : jsstring -> Q)
      (a b : fetched (list place)) :
  bodyOf a = bodyOf b -> searchOutcome parseFloat a = searchOutcome parseFloat b.
Proof.
  destruct a as [| [oka pa]], b as [| [okb pb]]; cbn [bodyOf payload];
    intros H; try discriminate; [reflexivity |].
  injection H as ->. reflexivity.
Qed.

(** X16. The resolver does not look at the status of the two searches:
    two networks whose searches answer the same bodies, under whatever
    statuses, and whose alternate provider answers alike, give the same
    result after the same requests. *)
Theorem geocodePostalCode_ignores_search_status
        (parseFloat : jsstring -> Q) (pc : jsstring)
        (net1 net2 : network) (log : list request) :
  (forall r, bodyOf (search net1 r) = bodyOf (search net2 r)) ->
  (forall r, geocoderCa net1 r = geocoderCa net2 r) ->
  geocodePostalCode parseFloat pc net1 log
  = geocodePostalCode parseFloat pc net2 log.
Proof.
  intros Hs Ha. rewrite !geocodePostalCode_chain.
  assert (E1 : structured parseFloat net1 pc = structured parseFloat net2 pc)
    by (apply searchOutcome_body, Hs).
  assert (E2 : freeText parseFloat net1 pc = freeText parseFloat net2 pc)
    by (apply searchOutcome_body, Hs).
  assert (E3 : alternate parseFloat net1 pc = alternate parseFloat net2 pc)
    by (unfold alternate; now rewrite Ha).
  unfold chain_aborting, requestsMade. now rewrite E1, E2, E3.
Qed.

Lemma geocodePostalCode_ignores_search_status_witness :
  (forall r, bodyOf (search (searchAnswering true) r)
             = bodyOf (search (searchAnswering false) r))
  /\ geocodePostalCode parseDecimal (js "M5V 3L9") (searchAnswering true) []
     = geocodePostalCode parseDecimal (js "M5V 3L9") (searchAnswering false) [].
Proof.
  assert (H : forall r, bodyOf (search (searchAnswering true) r)
                        = bodyOf (search (searchAnswering false) r))
    by (intro r; reflexivity).
  split; [exact H |].
  exact (@geocodePostalCode_ignores_search_status parseDecimal (js "M5V 3L9")
           (searchAnswering true) (searchAnswering false) [] H
           (fun r => eq_refl)).
Defined.

Lemma earlier_run (parseFloat : jsstring -> Q) (pc : jsstring) net log :
  EarlierVariant.geocodePostalCode parseFloat pc net log
  = (Normal match search net (structuredRequest pc) with
            | Resolves {| ok := true; payload := Json (first :: _) |} =>
                Some {| lat := parseFloat (place_lat first);
                        lng := parseFloat (place_lon first) |}
            | _ => None
            end,
     log ++ [structuredRequest pc]).
Proof.
  unfold EarlierVariant.geocodePostalCode, try_catch, bind, fetch.
  fold (formatted pc). fold (structuredRequest pc).
  destruct (search net (structuredRequest pc)) as [| [[|] [| | [| p l]]]];
    reflexivity.
Qed.

(** X17. The multi-provider resolver finds whatever the resolver of the
    variant before found, and the same coordinates: the earlier one makes
    one request, never throws, and answers only from a structured search
    whose status is a success. *)
Theorem geocodePostalCode_extends_earlier
        (parseFloat : jsstring -> Q) (pc : jsstring)
        (net : network) (log : list request) (c : Coordinates) :
  fst (EarlierVariant.geocodePostalCode parseFloat pc net log)
  = Normal (Some c) ->
  fst (geocodePostalCode parseFloat pc net log) = Normal (Some c)
  /\ snd (geocodePostalCode parseFloat pc net log)
     = snd (EarlierVariant.geocodePostalCode parseFloat pc net log).
Proof.
  rewrite earlier_run, geocodePostalCode_chain. cbn [fst snd].
  unfold chain_aborting, requestsMade, structured, searchOutcome.
  destruct (search net (structuredRequest pc)) as [| [[|] [| | [| p l]]]];
    cbn [payload]; intros H; try discriminate.
  inversion H. split; reflexivity.
Qed.

Lemma geocodePostalCode_extends_earlier_witness :
  fst (EarlierVariant.geocodePostalCode parseDecimal (js "M5V 3L9")
         (searchAnswering true) [])
  = Normal (Some downtown)
  /\ fst (geocodePostalCode parseDecimal (js "M5V 3L9")
            (searchAnswering true) [])
     = Normal (Some downtown).
Proof.
  assert (H : fst (EarlierVariant.geocodePostalCode parseDecimal
                     (js "M5V 3L9") (searchAnswering true) [])
              = Normal (Some downtown)) by (vm_compute; reflexivity).
  split; [exact H |].
  exact (proj1 (@geocodePostalCode_extends_earlier parseDecimal
                  (js "M5V 3L9") (searchAnswering true) [] downtown H)).
Defined.

(** The earlier resolver refuses an answer the current one accepts: a
    candidate under a status that is not a success. *)
Example earlier_refuses_status :
  fst (EarlierVariant.geocodePostalCode parseDecimal (js "M5V 3L9")
         (searchAnswering false) [])
  = Normal None
  /\ fst (geocodePostalCode parseDecimal (js "M5V 3L9")
            (searchAnswering false) [])
     = Normal (Some downtown).
Proof. split; vm_compute; reflexivity. Qed.




Example queries_m5v :
  structuredRequest (js " m5v 3l9") = NominatimPostal (js "m5v+3l9")
  /\ alternateRequest (js " m5v 3l9") = GeocoderCa (js "m5v3l9").
Proof. split; vm_compute; reflexivity. Qed.

(** ** The area label *)

(** X19. The area label is never the empty text: whatever the reverse
    geocoder answers, [reverseGeocode] completes normally, after its one
    request, with a text of at least one unit. *)
Theorem reverseGeocode_label_not_empty
        (lat lng : Q) (net : network) (log : list request) :
  exists label,
    reverseGeocode lat lng net log
    = (Normal label, log ++ [NominatimReverse lat lng])
    /\ label <> [].
Proof.
  unfold reverseGeocode, try_catch, bind, fetch.
  destruct (reverse net (NominatimReverse lat lng)) as [| [[|] pay]];
    cbn [ok negb];
    try (eexists; split; [reflexivity | discriminate]).
  unfold json; cbn [payload].
  destruct pay as [| | [[a |]]];
    try (eexists; split; [reflexivity | discriminate]).
  unfold ret.
  destruct (truthy (join (js " - ") (areaParts lat lng a))) eqn:E;
    eexists; (split; [reflexivity |]); [| discriminate].
  intros Hnil. rewrite Hnil in E. discriminate.
Qed.

(** ** The handlers of the screen *)

Section HandlerProperties.

Context (parseFloat : jsstring -> Q) (provider : TravelTimeProvider).

Lemma initializeLocation_run (lat lng : Q) (s : Screen) net log :
  initializeLocation provider lat lng s net log
  = match fetchNearbyHospitals provider (sortMode s) lat lng (appState s) net
            (log ++ [NominatimReverse lat lng]) with
    | (Normal st, log') =>
        (Normal tt,
         setApp (fun _ => st)
           (setAreaName (areaLabel lat lng
                           (reverse net (NominatimReverse lat lng))) s),
         log')
    | (Thrown, log') =>
        (Thrown,
         setAreaName (areaLabel lat lng
                        (reverse net (NominatimReverse lat lng))) s,
         log')
    end.
Proof.
  unfold initializeLocation, sbind, call, update, fetchNearby.
  rewrite reverseGeocode_run. reflexivity.
Qed.

(** Locating always completes: the area gets its label and the fetch
    runs after the request of the reverse geocoder. *)
Lemma initializeLocation_completes (lat lng : Q) (s : Screen) net log :
  exists st log',
    initializeLocation provider lat lng s net log
    = (Normal tt,
       setApp (fun _ => st)
         (setAreaName (areaLabel lat lng
                         (reverse net (NominatimReverse lat lng))) s),
       log')
    /\ fetchNearbyHospitals provider (sortMode s) lat lng (appState s) net
         (log ++ [NominatimReverse lat lng])
       = (Normal st, log')
    /\ loading st = false /\ refreshing st = false
    /\ ((Forall Enriched (hospitals st) /\ alerts st = alerts (appState s))
        \/ (hospitals st = hospitals (appState s)
            /\ alerts st = alerts (appState s) ++ [fetchError])).
Proof.
  rewrite initializeLocation_run.
  destruct (fetchNearbyHospitals_completes provider (sortMode s)
              lat lng (appState s) net (log ++ [NominatimReverse lat lng]))
    as (st & log' & E & Hl & Hr & Hh).
  exists st, log'. rewrite E. repeat split; assumption.
Qed.

(** X20. Submitting a postal code that fails validation makes no request:
    the only effect is the alert "Invalid Postal Code"; the hospitals,
    the location and the text of the field stay as they were. *)
Theorem handlePostalCodeSubmit_invalid
        (s : Screen) (net : network) (log : list request) :
  validateOntarioPostalCode (postalCode s) = false ->
  handlePostalCodeSubmit parseFloat provider s net log
  = (Normal tt, setApp (fun st => {| hospitals := hospitals st;
                                     loading := loading st;
                                     refreshing := refreshing st;
                                     alerts := alerts st ++ [invalidCodeAlert]
                                  |}) s,
     log).
Proof.
  intros Hv. unfold handlePostalCodeSubmit, sbind, current.
  rewrite Hv. reflexivity.
Qed.

(** X21. Submitting a valid postal code that no provider resolves keeps
    the hospitals, the location, its source, the area name and the text of
    the field; it closes the dialog, stops the spinner and raises the
    alert "Unable to find coordinates"; the requests made are those of the
    provider chain and no other. *)
Theorem handlePostalCodeSubmit_not_found
        (s : Screen) (net : network) (log : list request) :
  validateOntarioPostalCode (postalCode s) = true ->
  chain_aborting parseFloat net (postalCode s) = None ->
  handlePostalCodeSubmit parseFloat provider s net log
  = (Normal tt,
     {| appState := {| hospitals := hospitals (appState s); loading := false;
                       refreshing := refreshing (appState s);
                       alerts := alerts (appState s) ++ [notFoundAlert] |};
        userLocation := userLocation s;
        selectedHospital := selectedHospital s;
        locationPermission := locationPermission s;
        sortMode := sortMode s;
        showPostalCodeInput := false;
        postalCode := postalCode s;
        locationSource := locationSource s;
        areaName := areaName s;
        opened := opened s |},
     log ++ requestsMade parseFloat net (postalCode s)).
Proof.
  intros Hv Hc. unfold handlePostalCodeSubmit, sbind, current.
  rewrite Hv. cbn [negb]. unfold update at 1 2, call.
  rewrite geocodePostalCode_chain, Hc. reflexivity.
Qed.


Lemma getUserLocation_completes (dev : device) (s : Screen) net log :
  exists s' log',
    getUserLocationAndFetchHospitals provider dev s net log
    = (Normal tt, s', log')
    /\ loading (appState s') = false.
Proof.
  unfold getUserLocationAndFetchHospitals, stry, sbind at 1, resolve at 1.
  destruct (Location dev) as [api |];
    [| eexists; eexists; split; reflexivity].
  unfold sret at 1, sbind at 1, resolve at 1.
  destruct (getCurrentPositionAsync api) as [location |];
    [| eexists; eexists; split; reflexivity].
  unfold sret at 1, sbind at 1, update at 1.
  match goal with
  | |- context [initializeLocation provider ?la ?ln ?s0 net ?l0] =>
      destruct (initializeLocation_completes la ln s0 net l0)
        as (st & log' & E & _ & Hl & _)
  end.
  rewrite E. eexists. eexists. split; [reflexivity | exact Hl].
Qed.

Lemma requestLocationPermission_completes (dev : device) (s : Screen) net log :
  exists s' log',
    requestLocationPermission provider dev s net log = (Normal tt, s', log')
    /\ loading (appState s') = false.
Proof.
  unfold requestLocationPermission, stry, sbind at 1, resolve at 1.
  destruct (Location dev) as [api |];
    [| eexists; eexists; split; reflexivity].
  unfold sret at 1, sbind at 1, resolve at 1.
  destruct (requestForegroundPermissionsAsync api) as [status |];
    [| eexists; eexists; split; reflexivity].
  unfold sret at 1, sbind at 1, update at 1.
  destruct (JsString.eqb status (js "granted"));
    [| eexists; eexists; split; reflexivity].
  unfold sbind at 1, update at 1.
  match goal with
  | |- context [getUserLocationAndFetchHospitals provider dev ?s0 net ?l0] =>
      destruct (getUserLocation_completes dev s0 net l0)
        as (s' & log' & E & Hl)
  end.
  rewrite E. eexists. eexists. split; [reflexivity | exact Hl].
Qed.

(** X23. No handler throws, whatever the device, the network and the
    provider do: submitting a postal code, requesting the permission,
    locating by GPS, mounting the screen, refreshing and choosing GPS in
    the dialog all complete normally; those that start a location
    resolution leave the spinner stopped. *)
Theorem handlers_never_throw
        (dev : device) (s : Screen) (net : network) (log : list request) :
  (exists s' log',
      handlePostalCodeSubmit parseFloat provider s net log
      = (Normal tt, s', log'))
  /\ (exists s' log',
         requestLocationPermission provider dev s net log
         = (Normal tt, s', log')
         /\ loading (appState s') = false)
  /\ (exists s' log',
         getUserLocationAndFetchHospitals provider dev s net log
         = (Normal tt, s', log')
         /\ loading (appState s') = false)
  /\ (exists s' log',
         onMount provider dev s net log = (Normal tt, s', log')
         /\ loading (appState s') = false)
  /\ (exists s' log',
         onUseGpsLocation provider dev s net log = (Normal tt, s', log')
         /\ loading (appState s') = false)
  /\ (exists s' log', onRefresh provider s net log = (Normal tt, s', log')).
Proof.
  split; [| split; [| split; [| split; [| split]]]].
  - unfold handlePostalCodeSubmit, sbind at 1, current.
    destruct (validateOntarioPostalCode (postalCode s)); cbn [negb];
      [| eexists; eexists; reflexivity].
    unfold sbind, update at 1 2, call.
    rewrite geocodePostalCode_chain.
    destruct (chain_aborting parseFloat net (postalCode s)) as [c |];
      [| eexists; eexists; reflexivity].
    unfold update at 1 2.
    match goal with
    | |- context [initializeLocation provider ?la ?ln ?s0 net ?l0] =>
        destruct (initializeLocation_completes la ln s0 net l0)
          as (st & log' & E & _)
    end.
    rewrite E. eexists. eexists. reflexivity.
  - apply requestLocationPermission_completes.
  - apply getUserLocation_completes.
  - unfold onMount. destruct (OS dev);
      try apply requestLocationPermission_completes.
    unfold sbind, update.
    match goal with
    | |- context [initializeLocation provider ?la ?ln ?s0 net ?l0] =>
        destruct (initializeLocation_completes la ln s0 net l0)
          as (st & log' & E & _ & Hl & _)
    end.
    rewrite E. eexists. eexists. split; [reflexivity | exact Hl].
  - unfold onUseGpsLocation, sbind, update.
    match goal with
    | |- context [requestLocationPermission provider dev ?s0 net ?l0] =>
        destruct (requestLocationPermission_completes dev s0 net l0)
          as (s' & log' & E & Hl)
    end.
    rewrite E. eexists. eexists. split; [reflexivity | exact Hl].
  - unfold onRefresh, sbind, current.
    destruct (userLocation s) as [location |];
      [| eexists; eexists; reflexivity].
    unfold update, fetchNearby.
    match goal with
    | |- context [fetchNearbyHospitals provider ?m ?la ?ln ?st0 net ?l0] =>
        destruct (fetchNearbyHospitals_completes provider m la ln
                    st0 net l0) as (st & log' & E & _)
    end.
    rewrite E. eexists. eexists. reflexivity.
Qed.

(** X24. When the permission to locate is not obtained (no location
    module, the request rejects, or the status is not "granted"), no
    request is made: the spinner stops, the permission is recorded as
    refused when a status came back, and the hospitals, the alerts, the
    location and the dialog stay as they were. *)
Theorem requestLocationPermission_not_granted
        (dev : device) (s : Screen) (net : network) (log : list request)
        (recorded : option bool) :
  NotGranted dev recorded ->
  exists s',
    requestLocationPermission provider dev s net log = (Normal tt, s', log)
    /\ loading (appState s') = false
    /\ locationPermission s'
       = match recorded with
         | Some v => Some v
         | None => locationPermission s
         end
    /\ hospitals (appState s') = hospitals (appState s)
    /\ alerts (appState s') = alerts (appState s)
    /\ userLocation s' = userLocation s
    /\ locationSource s' = locationSource s
    /\ showPostalCodeInput s' = showPostalCodeInput s.
Proof.
  intros Hn.
  unfold requestLocationPermission, stry, sbind at 1, resolve at 1.
  destruct Hn as [Hm | api Hm Hr | api status Hm Hr Hs]; rewrite Hm.
  - eexists. split; [reflexivity |]. repeat split.
  - unfold sret at 1, sbind at 1, resolve at 1. rewrite Hr.
    eexists. split; [reflexivity |]. repeat split.
  - unfold sret at 1, sbind at 1, resolve at 1. rewrite Hr.
    unfold sret at 1, sbind at 1, update at 1. rewrite Hs.
    eexists. split; [reflexivity |]. repeat split.
Qed.

(** X25. When the permission is granted but the position cannot be read,
    no request is made: the alert "Unable to get your current location"
    is raised, the postal-code dialog is opened and the spinner stops; the
    hospitals and the location stay as they were, while the permission and
    the source "gps" recorded before the failure remain. *)
Theorem requestLocationPermission_no_position
        (dev : device) (api : LocationApi) (status : jsstring)
        (s : Screen) (net : network) (log : list request) :
  Location dev = Some api ->
  requestForegroundPermissionsAsync api = Some status ->
  JsString.eqb status (js "granted") = true ->
  getCurrentPositionAsync api = None ->
  requestLocationPermission provider dev s net log
  = (Normal tt,
     {| appState := {| hospitals := hospitals (appState s); loading := false;
                       refreshing := refreshing (appState s);
                       alerts := alerts (appState s) ++ [noPositionAlert] |};
        userLocation := userLocation s;
        selectedHospital := selectedHospital s;
        locationPermission := Some true;
        sortMode := sortMode s;
        showPostalCodeInput := true;
        postalCode := postalCode s;
        locationSource := Some gps;
        areaName := areaName s;
        opened := opened s |},
     log).
Proof.
  intros Hm Hr Hs Hp.
  unfold requestLocationPermission, stry, sbind at 1, resolve at 1.
  rewrite Hm. unfold sret at 1, sbind at 1, resolve at 1. rewrite Hr.
  unfold sret at 1, sbind at 1, update at 1. rewrite Hs.
  unfold sbind at 1, update at 1.
  unfold getUserLocationAndFetchHospitals, stry, sbind at 1, resolve at 1.
  rewrite Hm. unfold sret at 1, sbind at 1, resolve at 1. rewrite Hp.
  reflexivity.
Qed.


(** X27. On the web the screen starts at the default location of
    Toronto without consulting the device: the permission is recorded as
    granted and the source as "gps"; the reverse geocoder is asked first,
    at those coordinates, and the hospitals are fetched there. *)
Theorem onMount_web
        (dev : device) (s : Screen) (net : network) (log : list request) :
  OS dev = web ->
  exists s' log' st,
    onMount provider dev s net log = (Normal tt, s', log')
    /\ fetchNearbyHospitals provider (sortMode s) (lat toronto) (lng toronto)
         (appState s) net
         (log ++ [NominatimReverse (lat toronto) (lng toronto)])
       = (Normal st, log')
    /\ appState s' = st
    /\ userLocation s' = Some toronto
    /\ locationPermission s' = Some true
    /\ locationSource s' = Some gps
    /\ areaName s'
       = areaLabel (lat toronto) (lng toronto)
           (reverse net (NominatimReverse (lat toronto) (lng toronto))).
Proof.
  intros Hw. unfold onMount. rewrite Hw. unfold sbind, update.
  match goal with
  | |- context [initializeLocation provider ?la ?ln ?s0 net ?l0] =>
      destruct (initializeLocation_completes la ln s0 net l0)
        as (st & log' & E & Ef & _)
  end.
  rewrite E. eexists. exists log', st.
  split; [reflexivity |]. split; [exact Ef |]. repeat split.
Qed.

End HandlerProperties.

Lemma sortHospitals_nil (mode : SortMode) : sortHospitals [] mode = [].
Proof. destruct mode; reflexivity. Qed.

(** X28. Changing the sort mode makes no request and completes normally.
    The screen it leaves is the screen it found with the hospitals on
    display replaced by their ranking in the mode, and every other field
    as it was: the ranking is a reordering of all of them, non-decreasing
    in the key of the mode, and it keeps the invariant of enriched
    records. *)
Theorem onSortModeChange_reorders
        (s : Screen) (net : network) (log : list request) :
  onSortModeChange s net log
  = (Normal tt,
     {| appState :=
          {| hospitals := sortHospitals (hospitals (appState s)) (sortMode s);
             loading := loading (appState s);
             refreshing := refreshing (appState s);
             alerts := alerts (appState s) |};
        userLocation := userLocation s;
        selectedHospital := selectedHospital s;
        locationPermission := locationPermission s;
        sortMode := sortMode s;
        showPostalCodeInput := showPostalCodeInput s;
        postalCode := postalCode s;
        locationSource := locationSource s;
        areaName := areaName s;
        opened := opened s |},
     log)
  /\ Permutation (sortHospitals (hospitals (appState s)) (sortMode s))
       (hospitals (appState s))
  /\ NonDecreasing (sortKey (sortMode s))
       (sortHospitals (hospitals (appState s)) (sortMode s))
  /\ (Forall Enriched (hospitals (appState s)) ->
      Forall Enriched (sortHospitals (hospitals (appState s)) (sortMode s))).
Proof.
  split; [| split; [| split]].
  - unfold onSortModeChange, sbind, current.
    destruct s as [[hs ld rf al] ul sh lp sm sp pc ls an op].
    cbn [appState hospitals sortMode].
    destruct hs as [|h l].
    + cbn [length Nat.ltb Nat.leb]. rewrite sortHospitals_nil. reflexivity.
    + cbn [length Nat.ltb Nat.leb]. reflexivity.
  - apply sortHospitals_perm.
  - apply sortHospitals_nondecreasing.
  - intros He. eapply Permutation_Forall; [| exact He].
    symmetry. apply sortHospitals_perm.
Qed.

Lemma handlePostalCodeSubmit_invalid_witness :
  validateOntarioPostalCode (postalCode (screenWith "A1A 1A1")) = false
  /\ snd (handlePostalCodeSubmit parseDecimal exampleProvider
            (screenWith "A1A 1A1") offline [])
     = [].
Proof.
  assert (H : validateOntarioPostalCode (postalCode (screenWith "A1A 1A1"))
              = false) by (vm_compute; reflexivity).
  split; [exact H |].
  rewrite (@handlePostalCodeSubmit_invalid parseDecimal exampleProvider
             (screenWith "A1A 1A1") offline [] H).
  reflexivity.
Defined.

Lemma handlePostalCodeSubmit_not_found_witness :
  (validateOntarioPostalCode (postalCode (screenWith "M5V 3L9")) = true
   /\ chain_aborting parseDecimal offline (postalCode (screenWith "M5V 3L9"))
      = None)
  /\ snd (handlePostalCodeSubmit parseDecimal exampleProvider
            (screenWith "M5V 3L9") offline [])
     = [] ++ requestsMade parseDecimal offline
               (postalCode (screenWith "M5V 3L9")).
Proof.
  assert (H1 : validateOntarioPostalCode (postalCode (screenWith "M5V 3L9"))
               = true) by (vm_compute; reflexivity).
  assert (H2 : chain_aborting parseDecimal offline
                 (postalCode (screenWith "M5V 3L9")) = None)
    by (vm_compute; reflexivity).
  split; [split; assumption |].
  rewrite (@handlePostalCodeSubmit_not_found parseDecimal exampleProvider
             (screenWith "M5V 3L9") offline [] H1 H2).
  reflexivity.
Defined.


Lemma requestLocationPermission_not_granted_witness :
  NotGranted denied (Some false)
  /\ exists s',
       requestLocationPermission exampleProvider denied (screenWith "") offline []
       = (Normal tt, s', [])
       /\ loading (appState s') = false.
Proof.
  assert (H : NotGranted denied (Some false)).
  { apply status_not_granted
      with (api := expoLocation denied) (status := js "denied");
      reflexivity. }
  split; [exact H |].
  destruct (@requestLocationPermission_not_granted exampleProvider denied
              (screenWith "") offline [] (Some false) H)
    as (s' & E & Hl & _).
  exists s'. split; assumption.
Defined.

Lemma requestLocationPermission_no_position_witness :
  (Location noPosition = Some (expoLocation noPosition)
   /\ requestForegroundPermissionsAsync (expoLocation noPosition)
      = Some (js "granted")
   /\ JsString.eqb (js "granted") (js "granted") = true
   /\ getCurrentPositionAsync (expoLocation noPosition) = None)
  /\ snd (requestLocationPermission exampleProvider noPosition (screenWith "")
            offline [])
     = [].
Proof.
  assert (H1 : Location noPosition = Some (expoLocation noPosition))
    by reflexivity.
  assert (H2 : requestForegroundPermissionsAsync (expoLocation noPosition)
               = Some (js "granted")) by reflexivity.
  assert (H3 : JsString.eqb (js "granted") (js "granted") = true)
    by reflexivity.
  assert (H4 : getCurrentPositionAsync (expoLocation noPosition) = None)
    by reflexivity.
  split; [repeat split; assumption |].
  rewrite (@requestLocationPermission_no_position exampleProvider noPosition
             (expoLocation noPosition) (js "granted") (screenWith "")
             offline [] H1 H2 H3 H4).
  reflexivity.
Defined.


Lemma onSortModeChange_reorders_witness :
  Forall Enriched (hospitals (appState rankedScreen))
  /\ Forall Enriched
       (sortHospitals (hospitals (appState rankedScreen))
          (sortMode rankedScreen)).
Proof.
  assert (H : Forall Enriched (hospitals (appState rankedScreen))).
  { repeat constructor.
    - exists 12, 42. repeat split; reflexivity.
    - exists 20, 25. repeat split; reflexivity. }
  split; [exact H |].
  exact (proj2 (proj2 (proj2 (onSortModeChange_reorders rankedScreen
                                offline []))) H).
Defined.

Lemma onMount_web_witness :
  OS browser = web
  /\ exists s' log',
       onMount exampleProvider browser (screenWith "") offline []
       = (Normal tt, s', log')
       /\ userLocation s' = Some toronto.
Proof.
  assert (H : OS browser = web) by reflexivity.
  split; [exact H |].
  destruct (@onMount_web exampleProvider browser (screenWith "") offline [] H)
    as (s' & log' & st & E & _ & _ & Hu & _).
  exists s', log'. split; assumption.
Defined.
